(** * Service-App: the customer screen and the dashboard calendar

    A shallow embedding of the logic of [src/screens/Customer.jsx] (date
    codec, prefix search, CSV import, job edit) and of the dashboard
    component (job day keys, jobs of the selected day, blackout toggle,
    tile classification), with the properties of the specification stated
    and proved over it. *)

From Stdlib Require Import ZArith NArith Ascii String List Lia.
From stdpp Require Import base option list gmap strings.

Local Open Scope Z_scope.

(** ** JavaScript strings

    A JavaScript string is a sequence of 16-bit code units; [length],
    [padStart], [includes], [split] and the relational operators all work on
    code units, so a string is a list of code units here.  [str] injects a
    literal of the source. *)

Abbreviation jsstring := (list N).

Definition str (s : string) : jsstring :=
  List.map N_of_ascii (list_ascii_of_string s).

Definition slash : N := 47.
Definition dash : N := 45.
Definition zero_digit : N := 48.

(** [s.includes(c)] for a one-unit search string [c]. *)
Definition includes (s : jsstring) (c : N) : bool :=
  existsb (N.eqb c) s.

(** [s.split(c)] for a one-unit separator [c]: never empty, the empty
    string splits into one empty field. *)
Fixpoint split (s : jsstring) (sep : N) : list jsstring :=
  match s with
  | [] => [[]]
  | c :: s' =>
      if N.eqb c sep then [] :: split s' sep
      else match split s' sep with
           | p :: ps => (c :: p) :: ps
           | [] => [[c]]
           end
  end.

(** [s.padStart(n, f)] for a one-unit filler [f]. *)
Definition padStart (s : jsstring) (n : nat) (fill : N) : jsstring :=
  repeat fill (n - length s)%nat ++ s.

(** The fields of a template literal joined by a one-unit separator. *)
Fixpoint join (sep : N) (parts : list jsstring) : jsstring :=
  match parts with
  | [] => []
  | [p] => p
  | p :: ps => p ++ sep :: join sep ps
  end.

(** ** JavaScript values and completions

    The values that job documents, form data and CSV rows hold.  Numbers
    are kept to the integers: only their truthiness is ever consulted. *)

Inductive value :=
  | VUndefined
  | VNull
  | VBool (b : bool)
  | VNum (z : Z)
  | VStr (s : jsstring).

Global Instance value_eq_dec : EqDecision value.
Proof. solve_decision. Defined.

(** ToBoolean. *)
Definition truthy (v : value) : bool :=
  match v with
  | VUndefined | VNull => false
  | VBool b => b
  | VNum z => negb (z =? 0)
  | VStr s => match s with [] => false | _ => true end
  end.

(** [a || b]. *)
Definition js_or (a b : value) : value := if truthy a then a else b.

(** [a === b] on the values above. *)
Definition strict_eq (a b : value) : bool := bool_decide (a = b).

(** How an evaluation ends: with a value, or with a [TypeError] (a method
    called on something that has no such method). *)
Inductive outcome (A : Type) :=
  | Returns (a : A)
  | Throws.
Arguments Returns {A} a.
Arguments Throws {A}.

Global Instance outcome_eq_dec {A} `{EqDecision A} : EqDecision (outcome A).
Proof. solve_decision. Defined.

Global Instance outcome_ret : MRet outcome := fun A a => Returns a.
Global Instance outcome_bind : MBind outcome := fun A B f m =>
  match m with
  | Returns a => f a
  | Throws => Throws
  end.

Global Instance outcome_fmap : FMap outcome := fun A B f m =>
  match m with
  | Returns a => Returns (f a)
  | Throws => Throws
  end.

(** A destructured array element is [undefined] when the array is too
    short; [None] stands for it. *)
Definition ToString (field : option jsstring) : jsstring :=
  match field with
  | Some s => s
  | None => str "undefined"
  end.

(** A string method called on a destructured element. *)
Definition method {A} (field : option jsstring) (f : jsstring -> A) : outcome A :=
  match field with
  | Some s => Returns (f s)
  | None => Throws
  end.

(** ** Customer.jsx: the date codec *)

(** [formatDateForInput]: MM/DD/YYYY to YYYY-MM-DD. *)
Definition formatDateForInput (dateStr : value) : outcome value :=
  if negb (truthy dateStr) then Returns dateStr else
  match dateStr with
  | VStr s =>
      if negb (includes s slash) then Returns dateStr else
      let parts := split s slash in
      let month := parts !! 0%nat in
      let day := parts !! 1%nat in
      let year := parts !! 2%nat in
      m ← method month (fun x => padStart x 2 zero_digit);
      d ← method day (fun x => padStart x 2 zero_digit);
      Returns (VStr (ToString year ++ dash :: m ++ dash :: d))
  | _ => Throws
  end.

(** [formatDateForStorage]: YYYY-MM-DD to MM/DD/YYYY. *)
Definition formatDateForStorage (dateStr : value) : outcome value :=
  if negb (truthy dateStr) then Returns dateStr else
  match dateStr with
  | VStr s =>
      if negb (includes s dash) then Returns dateStr else
      let parts := split s dash in
      let year := parts !! 0%nat in
      let month := parts !! 1%nat in
      let day := parts !! 2%nat in
      Returns (VStr (ToString month ++ slash :: ToString day ++ slash :: ToString year))
  | _ => Throws
  end.

(** Stored form to display form and back. *)
Definition roundTrip (s : jsstring) : outcome value :=
  formatDateForInput (VStr s) ≫= formatDateForStorage.

(** The well-formed stored dates: three fields of decimal digits, a month
    and a day of one or two digits and a year of four. *)
Definition is_digit (c : N) : bool := (48 <=? c)%N && (c <=? 57)%N.

Definition all_digits (s : jsstring) : bool := forallb is_digit s.

Definition wellFormedDate (s : jsstring) : bool :=
  match split s slash with
  | [m; d; y] =>
      all_digits m && all_digits d && all_digits y
      && (1 <=? length m)%nat && (length m <=? 2)%nat
      && (1 <=? length d)%nat && (length d <=? 2)%nat
      && (length y =? 4)%nat
  | _ => false
  end.

(** Month and day both written with two digits. *)
Definition zeroPadded (s : jsstring) : bool :=
  match split s slash with
  | [m; d; _] => (length m =? 2)%nat && (length d =? 2)%nat
  | _ => false
  end.

(** The stored date with month and day padded to two digits. *)
Definition padded (s : jsstring) : jsstring :=
  match split s slash with
  | [m; d; y] => join slash [padStart m 2 zero_digit; padStart d 2 zero_digit; y]
  | _ => s
  end.

(** ** Customer.jsx: objects, the store and the search *)

(** A plain object: property names to values.  A later property of an
    object literal overrides an earlier one of the same name. *)
Abbreviation obj := (gmap string value).

(** [o.k]: [undefined] when the property is absent. *)
Definition get (o : obj) (k : string) : value := default VUndefined (o !! k).

(** The operators the search uses in its [where] constraints. *)
Inductive whereOp := GreaterEq | LessEq.

Record whereClause := Where {
  wfield : string;
  wop : whereOp;
  woperand : jsstring
}.

(** Code-unit-wise lexicographic comparison of two strings. *)
Fixpoint str_compare (a b : jsstring) : comparison :=
  match a, b with
  | [], [] => Eq
  | [], _ :: _ => Lt
  | _ :: _, [] => Gt
  | x :: a', y :: b' =>
      match N.compare x y with
      | Eq => str_compare a' b'
      | c => c
      end
  end.

Definition str_le (a b : jsstring) : bool :=
  match str_compare a b with Gt => false | _ => true end.

Definition str_lt (a b : jsstring) : bool :=
  match str_compare a b with Lt => true | _ => false end.

(** Modelled from the spec: the store's evaluation of a range constraint,
    which the sources leave to the database client.  Names are compared
    lexically (the prefix search contract): a document satisfies the
    constraint when the field holds a string that compares accordingly; a
    document without the field, or with a value of another type there, is
    not selected. *)
Definition satisfies (data : obj) (w : whereClause) : bool :=
  match data !! wfield w with
  | Some (VStr s) =>
      match wop w with
      | GreaterEq => str_le (woperand w) s
      | LessEq => str_le s (woperand w)
      end
  | _ => false
  end.

(** A stored document: its id and its data. *)
Record document := Doc { doc_id : jsstring; doc_data : obj }.

(** [getDocs(query(jobsRef, ...constraints))]: the documents that satisfy
    every constraint, in the order of the collection. *)
Definition getDocs (jobs : list document) (q : list whereClause) : list document :=
  List.filter (fun d => forallb (satisfies (doc_data d)) q) jobs.

(** [{ id: doc.id, ...doc.data() }] *)
Definition withId (d : document) : obj :=
  doc_data d ∪ {[ "id"%string := VStr (doc_id d) ]}.

(** The code unit U+F8FF that closes the search range. *)
Definition sentinel : N := 63743.

(** The two constraints that [handleSearch] builds for a non-empty input. *)
Definition searchQuery (input : jsstring) : list whereClause :=
  [ Where "name" GreaterEq input; Where "name" LessEq (input ++ [sentinel]) ].

(** [handleSearch]: the new [searchname] and [matchingJobs]. *)
Definition handleSearch (jobs : list document) (input : jsstring)
  : jsstring * list obj :=
  if (0 <? length input)%nat
  then (input, List.map withId (getDocs jobs (searchQuery input)))
  else (input, []).

(** Whether the search for [input] selects a job named [name]. *)
Definition selects (input name : jsstring) : bool :=
  forallb (satisfies {[ "name"%string := VStr name ]}) (searchQuery input).

(** ** Customer.jsx: editing a job and importing CSV rows *)

(** What [onSubmit] does: nothing without a selected job, one call of
    [updateDoc] on the selected document with the record built, or a logged
    error when building the record throws. *)
Inductive submitResult :=
  | NoSelection
  | UpdateDoc (docId : value) (updatedData : obj)
  | SubmitError.

Definition onSubmit (selectedJob : option obj) (data : obj) : submitResult :=
  match selectedJob with
  | None => NoSelection
  | Some job =>
      let jobDocRef := get job "id" in
      match formatDateForStorage (get data "date") with
      | Returns date =>
          let updatedData :=
            <[ "completed"%string := js_or (get job "completed") (VBool false) ]>
              (<[ "date"%string := date ]> data) in
          UpdateDoc jobDocRef updatedData
      | _ => SubmitError
      end
  end.

(** [s.indexOf("//") >= 0] *)
Fixpoint hasDoubleSlash (s : jsstring) : bool :=
  match s with
  | a :: s' =>
      match s' with
      | b :: _ => (a =? slash)%N && (b =? slash)%N || hasDoubleSlash s'
      | [] => false
      end
  | [] => false
  end.

(** The database client's [doc(db, "jobs", docId)]: the path of the
    document referred to, or nothing when the call throws.  The client
    asks [docId] for [indexOf], which only a string has; it refuses a
    string that holds two slashes in a row; it splits the string at the
    slashes, leaves the empty segments out and appends the others to
    "jobs"; and it refuses a path of an odd number of segments, which
    names a collection and not a document. *)
Definition docPath (docId : value) : option (list jsstring) :=
  match docId with
  | VStr s =>
      if hasDoubleSlash s then None
      else
        let segments :=
          str "jobs" :: List.filter (fun seg => negb (Nat.eqb (length seg) 0))
                                    (split s slash) in
        if Nat.even (length segments) then Some segments else None
  | _ => None
  end.

(** An id that names a document of the collection as it is: not empty and
    without a slash. *)
Definition plainId (s : jsstring) : bool :=
  negb (Nat.eqb (length s) 0) && negb (includes s slash).

(** The body of the import loop for one parsed row: the document id and
    the record passed to [setDoc], or nothing when building the record or
    the document reference throws (the error is logged and the loop goes
    on).  [uuid] is what [uuidv4()] returns if it is called.  Whether the
    store accepts the record is not part of this. *)
Definition importRow (uuid : jsstring) (row : obj) : option (value * obj) :=
  let docId := js_or (get row "id") (VStr uuid) in
  match formatDateForStorage (get row "date") with
  | Returns date =>
      let formattedRow :=
        <[ "id"%string := docId ]>
          (<[ "completed"%string :=
                js_or (VBool (strict_eq (get row "completed") (VStr (str "true"))))
                      (VBool false) ]>
             (<[ "date"%string := date ]> row)) in
      match docPath docId with
      | Some docRef => Some (docId, formattedRow)
      | None => None
      end
  | _ => None
  end.

(** [handleFileUpload] on the parsed rows: the [setDoc] calls in order.
    [uuidv4 n] is the n-th identifier the generator hands out; one is
    consumed only for a row without a usable [id]. *)
Fixpoint handleFileUpload (uuidv4 : nat -> jsstring) (n : nat) (rows : list obj)
  : list (value * obj) :=
  match rows with
  | [] => []
  | row :: rest =>
      let n' := if truthy (get row "id") then n else S n in
      match importRow (uuidv4 n) row with
      | Some w => w :: handleFileUpload uuidv4 n' rest
      | None => handleFileUpload uuidv4 n' rest
      end
  end.

(** The rows for which [setDoc] is called, in order: those of
    [handleFileUpload], seen from the side of the parsed file. *)
Fixpoint rowsWritten (uuidv4 : nat -> jsstring) (n : nat) (rows : list obj)
  : list obj :=
  match rows with
  | [] => []
  | row :: rest =>
      let n' := if truthy (get row "id") then n else S n in
      match importRow (uuidv4 n) row with
      | Some _ => row :: rowsWritten uuidv4 n' rest
      | None => rowsWritten uuidv4 n' rest
      end
  end.

(** The rows whose record can be built: the date is falsy or a string. *)
Definition storable (row : obj) : bool :=
  match get row "date" with
  | VStr _ => true
  | v => negb (truthy v)
  end.

(** The rows whose own id names a document: a string that [docPath]
    accepts. *)
Definition hasDocId (row : obj) : bool :=
  bool_decide (is_Some (docPath (get row "id"))).

(** Whether the [completed] column of a row is the literal text "true". *)
Definition completedIsTrue (row : obj) : bool :=
  bool_decide (row !! "completed"%string = Some (VStr (str "true"))).

(** ** The runtime's Numbers and Dates, as far as the dashboard uses them

    The dashboard builds [new Date(year, month - 1, day)] from the three
    fields of a stored date and compares [toDateString()] results.  The
    functions below are those of the language definition: the conversion
    of a string to a Number, with the rounding of the binary64 format, and
    the calendar arithmetic of Date.  The two zeros are not told apart,
    which no Date function does either.  The calendar arithmetic is done
    over the integers, exactly: the day number of a month exists for every
    year, where a runtime gives up ([NaN]) on a year too far out for it;
    the two differ only for a year that no Date can hold together with a
    day count that leads back into the range of Dates. *)

Fixpoint decimal_value (acc : Z) (s : jsstring) : Z :=
  match s with
  | [] => acc
  | c :: s' => decimal_value (10 * acc + (Z.of_N c - 48)) s'
  end.

(** A Number: [NaN], an infinity, or the finite value [m * 2^e]. *)
Inductive Number := NaN | Infinity (negative : bool) | Finite (m e : Z).

(** The Number nearest to the ratio [n / d] of two integers, [d] positive:
    round to nearest, ties to even, in the binary64 format (53 bits, least
    exponent -1074, overflow to an infinity).  An integer of magnitude up to
    2^53 is a Number as it is. *)
Definition roundRatio (n d : Z) : Number :=
  if (d =? 1) && (Z.abs n <=? 2 ^ 53) then Finite n 0
  else
    let a := Z.abs n in
    if a =? 0 then Finite 0 0 else
    let e0 := Z.log2 a - Z.log2 d in
    let reaches k := if 0 <=? k then d * 2 ^ k <=? a else d <=? a * 2 ^ (- k) in
    let e := if reaches e0 then e0 else e0 - 1 in
    if 1023 <? e then Infinity (n <? 0) else
    let q := Z.max (e - 52) (-1074) in
    let num := if 0 <=? q then a else a * 2 ^ (- q) in
    let den := if 0 <=? q then d * 2 ^ q else d in
    let m0 := num / den in
    let r := num mod den in
    let m := if (den <? 2 * r) || ((den =? 2 * r) && Z.odd m0) then m0 + 1 else m0 in
    if (q =? 971) && (2 ^ 53 <=? m) then Infinity (n <? 0)
    else Finite (if n <? 0 then - m else m) q.

(** White space and line terminators, which [StringToNumber] strips. *)
Definition isStrWhiteSpaceChar (c : N) : bool :=
  match c with
  | 9%N | 10%N | 11%N | 12%N | 13%N | 32%N | 160%N | 5760%N | 8232%N
  | 8233%N | 8239%N | 8287%N | 12288%N | 65279%N => true
  | _ => (8192 <=? c)%N && (c <=? 8202)%N
  end.

Fixpoint dropWhile (p : N -> bool) (s : jsstring) : jsstring :=
  match s with
  | c :: s' => if p c then dropWhile p s' else s
  | [] => []
  end.

Definition trimString (s : jsstring) : jsstring :=
  rev (dropWhile isStrWhiteSpaceChar (rev (dropWhile isStrWhiteSpaceChar s))).

(** The longest prefix of digits, and the rest. *)
Fixpoint spanDigits (s : jsstring) : jsstring * jsstring :=
  match s with
  | c :: s' =>
      if is_digit c then let (ds, r) := spanDigits s' in (c :: ds, r)
      else ([], s)
  | [] => ([], [])
  end.

(** The value of a digit of radix up to 16, if it is one. *)
Definition digitValue (c : N) : option Z :=
  if is_digit c then Some (Z.of_N c - 48)
  else if (97 <=? c)%N && (c <=? 102)%N then Some (Z.of_N c - 87)
  else if (65 <=? c)%N && (c <=? 70)%N then Some (Z.of_N c - 55)
  else None.

Fixpoint radixValue (radix acc : Z) (s : jsstring) : option Z :=
  match s with
  | [] => Some acc
  | c :: s' =>
      match digitValue c with
      | Some v => if v <? radix then radixValue radix (radix * acc + v) s' else None
      | None => None
      end
  end.

(** A non-decimal integer literal: 0x, 0o or 0b and at least one digit. *)
Definition nonDecimalLiteral (s : jsstring) : option Z :=
  match s with
  | 48%N :: p :: d :: ds =>
      match p with
      | 120%N | 88%N => radixValue 16 0 (d :: ds)
      | 111%N | 79%N => radixValue 8 0 (d :: ds)
      | 98%N | 66%N => radixValue 2 0 (d :: ds)
      | _ => None
      end
  | _ => None
  end.

(** The exponent part, if the string is one: e or E, an optional sign and
    at least one digit.  The empty string is the absent exponent. *)
Definition exponentPart (s : jsstring) : option Z :=
  match s with
  | [] => Some 0
  | (101%N | 69%N) :: s' =>
      let '(neg, ds) := match s' with
                        | 45%N :: r => (true, r)
                        | 43%N :: r => (false, r)
                        | _ => (false, s')
                        end in
      match ds with
      | [] => None
      | _ => if all_digits ds
             then Some (if neg : bool then - decimal_value 0 ds else decimal_value 0 ds)
             else None
      end
  | _ => None
  end.

(** An unsigned decimal literal: digits, an optional point and digits (a
    digit on one side of the point at least), an optional exponent; the
    significand and the power of ten. *)
Definition unsignedDecimal (s : jsstring) : option (jsstring * Z) :=
  let (ip, r1) := spanDigits s in
  let '(fp, r2, ok) :=
    match r1 with
    | 46%N :: r => let (fp, r2) := spanDigits r in
                   (fp, r2, negb (Nat.eqb (length ip + length fp) 0))
    | _ => ([], r1, negb (Nat.eqb (length ip) 0))
    end in
  if ok : bool then
    match exponentPart r2 with
    | Some ex => Some (ip ++ fp, ex - Z.of_nat (length fp))
    | None => None
    end
  else None.

(** The Number of the significand [ds] times ten to the [ex].  Beyond the
    two bounds the value is above every finite Number, or below half the
    least positive one. *)
Definition decimalNumber (negative : bool) (ds : jsstring) (ex : Z) : Number :=
  let s := decimal_value 0 ds in
  let n := if negative then - s else s in
  if s =? 0 then Finite 0 0
  else if 309 <=? ex then Infinity negative
  else if Z.of_nat (length ds) + ex <=? -324 then Finite 0 0
  else if 0 <=? ex then roundRatio (n * 10 ^ ex) 1
  else roundRatio n (10 ^ (- ex)).

Definition strDecimalLiteral (s : jsstring) : Number :=
  let '(neg, u) := match s with
                   | 45%N :: r => (true, r)
                   | 43%N :: r => (false, r)
                   | _ => (false, s)
                   end in
  if bool_decide (u = str "Infinity") then Infinity neg
  else match unsignedDecimal u with
       | Some (ds, ex) => decimalNumber neg ds ex
       | None => NaN
       end.

(** StringToNumber: white space is dropped at both ends; the empty string
    is zero; a literal that is not one of the grammar is [NaN]; a decimal
    literal is the Number nearest to its exact value. *)
Definition StringToNumber (s : jsstring) : Number :=
  let t := trimString s in
  match t with
  | [] => Finite 0 0
  | _ => match nonDecimalLiteral t with
         | Some v => roundRatio v 1
         | None => strDecimalLiteral t
         end
  end.

Definition isFinite (n : Number) : bool :=
  match n with
  | Finite _ _ => true
  | _ => false
  end.

(** ToIntegerOrInfinity of a finite Number: toward zero. *)
Definition truncate (m e : Z) : Z :=
  if 0 <=? e then m * 2 ^ e else Z.quot m (2 ^ (- e)).

(** [n - 1] *)
Definition minus_one (n : Number) : Number :=
  match n with
  | Finite m e =>
      if 0 <=? e then roundRatio (m * 2 ^ e - 1) 1
      else roundRatio (m - 2 ^ (- e)) (2 ^ (- e))
  | _ => n
  end.

(** ToNumber of a destructured field: [undefined] converts to [NaN]. *)
Definition ToNumber (field : option jsstring) : Number :=
  match field with
  | Some s => StringToNumber s
  | None => NaN
  end.

Definition msPerDay : Z := 86400000.

Definition Day (t : Z) : Z := t / msPerDay.

Definition DaysInYear (y : Z) : Z :=
  if negb (y mod 4 =? 0) then 365
  else if negb (y mod 100 =? 0) then 366
  else if negb (y mod 400 =? 0) then 365
  else 366.

Definition DayFromYear (y : Z) : Z :=
  365 * (y - 1970) + (y - 1969) / 4 - (y - 1901) / 100 + (y - 1601) / 400.

(** The largest year that starts no later than [t]: an estimate from the
    mean length of a year, corrected by at most one. *)
Definition YearFromTime (t : Z) : Z :=
  let y := 1970 + (Day t * 400) / 146097 in
  if Day t <? DayFromYear y then y - 1
  else if DayFromYear (y + 1) <=? Day t then y + 1
  else y.

Definition InLeapYear (t : Z) : Z :=
  if DaysInYear (YearFromTime t) =? 366 then 1 else 0.

Definition DayWithinYear (t : Z) : Z := Day t - DayFromYear (YearFromTime t).

Definition MonthFromTime (t : Z) : Z :=
  let d := DayWithinYear t in
  let leap := InLeapYear t in
  if d <? 31 then 0
  else if d <? 59 + leap then 1
  else if d <? 90 + leap then 2
  else if d <? 120 + leap then 3
  else if d <? 151 + leap then 4
  else if d <? 181 + leap then 5
  else if d <? 212 + leap then 6
  else if d <? 243 + leap then 7
  else if d <? 273 + leap then 8
  else if d <? 304 + leap then 9
  else if d <? 334 + leap then 10
  else 11.

(** The day of the year on which month [m] (0 to 11) starts. *)
Definition monthStart (m leap : Z) : Z :=
  match m with
  | 0 => 0
  | 1 => 31
  | 2 => 59 + leap
  | 3 => 90 + leap
  | 4 => 120 + leap
  | 5 => 151 + leap
  | 6 => 181 + leap
  | 7 => 212 + leap
  | 8 => 243 + leap
  | 9 => 273 + leap
  | 10 => 304 + leap
  | _ => 334 + leap
  end.

Definition DateFromTime (t : Z) : Z :=
  DayWithinYear t - monthStart (MonthFromTime t) (InLeapYear t) + 1.

Definition WeekDay (t : Z) : Z := (Day t + 4) mod 7.

(** The number of days of month [m] (0 to 11). *)
Definition daysInMonth (m leap : Z) : Z :=
  match m with
  | 1 => 28 + leap
  | 3 | 5 | 8 | 10 => 30
  | _ => 31
  end.

(** MakeFullYear: a year from 0 to 99 counts from 1900. *)
Definition MakeFullYear (y : Z) : Z :=
  if (0 <=? y) && (y <=? 99) then 1900 + y else y.

(** MakeDay on integers: the day number of the first of the month, which
    over the integers exists for every year, plus the date. *)
Definition MakeDay (year month date : Z) : Z :=
  let ym := year + month / 12 in
  let mn := month mod 12 in
  let leap := if DaysInYear ym =? 366 then 1 else 0 in
  DayFromYear ym + monthStart mn leap + date - 1.

Definition MakeDate (day time : Z) : Z := day * msPerDay + time.

(** The time value of a Date: an integer of milliseconds, or none for an
    invalid Date. *)
Inductive TimeValue := InvalidTime | Time (t : Z).

Definition TimeClip (t : Z) : TimeValue :=
  if 8640000000000000 <? Z.abs t then InvalidTime else Time t.

(** The local time zone adjustment, taken to be that of UTC, for the
    dashboard's own comparisons: the day keys compared are local dates on
    both sides, a job's and a tile's.  [zone] below is the general case. *)
Definition LocalTZA : Z := 0.
Definition UTC (t : Z) : Z := t - LocalTZA.
Definition LocalTime (t : Z) : Z := t + LocalTZA.

(** A time zone: the offset of local time from UTC in milliseconds, at a
    UTC time ([true]) or at a local time ([false]). *)
Definition zone := Z -> bool -> Z.

Definition UTCIn (tza : zone) (t : Z) : Z := t - tza t false.
Definition LocalTimeIn (tza : zone) (t : Z) : Z := t + tza t true.

(** The zone of UTC. *)
Definition utcZone : zone := fun _ _ => LocalTZA.

(** A zone whose offsets stay within a day. *)
Definition boundedZone (tza : zone) : Prop :=
  forall t isUTC, Z.abs (tza t isUTC) <= msPerDay.

(** The zone has the day of the local midnight [t]: the instant taken for
    [t] is, in local time again, on the same day.  It is not when the zone
    skips that day. *)
Definition zoneHasDay (tza : zone) (t : Z) : Prop :=
  Day (LocalTimeIn tza (UTCIn tza t)) = Day t.

(** The local time that [new Date(year, month, day)] stands for, all three
    arguments given: none when one of them is not finite, else the midnight
    that [MakeDay] finds from the arguments cut to integers. *)
Definition localMidnight (year month day : Number) : option Z :=
  match year, month, day with
  | Finite ym ye, Finite mm me, Finite dm de =>
      Some (MakeDate (MakeDay (MakeFullYear (truncate ym ye)) (truncate mm me)
                              (truncate dm de)) 0)
  | _, _, _ => None
  end.

(** [new Date(year, month, day)] *)
Definition newDate (year month day : Number) : TimeValue :=
  match localMidnight year month day with
  | Some t => TimeClip (UTC t)
  | None => InvalidTime
  end.

(** Decimal digits of a non-negative integer, most significant first. *)
Fixpoint decimal_digits (fuel : nat) (n : Z) (acc : jsstring) : jsstring :=
  match fuel with
  | O => acc
  | S fuel' =>
      let acc' := (48 + Z.to_N (n mod 10))%N :: acc in
      if n <? 10 then acc' else decimal_digits fuel' (n / 10) acc'
  end.

Definition ToZeroPaddedDecimalString (n : Z) (minLength : nat) : jsstring :=
  padStart (decimal_digits (S (Z.to_nat (Z.log2 n))) n []) minLength zero_digit.

Definition weekdayName (d : Z) : jsstring :=
  match d with
  | 0 => str "Sun" | 1 => str "Mon" | 2 => str "Tue" | 3 => str "Wed"
  | 4 => str "Thu" | 5 => str "Fri" | _ => str "Sat"
  end.

Definition monthName (m : Z) : jsstring :=
  match m with
  | 0 => str "Jan" | 1 => str "Feb" | 2 => str "Mar" | 3 => str "Apr"
  | 4 => str "May" | 5 => str "Jun" | 6 => str "Jul" | 7 => str "Aug"
  | 8 => str "Sep" | 9 => str "Oct" | 10 => str "Nov" | _ => str "Dec"
  end.

Definition space : N := 32.

(** DateString of a local time: weekday, month, day and year. *)
Definition DateString (t : Z) : jsstring :=
  let yv := YearFromTime t in
  let sign := if 0 <=? yv then [] else [dash] in
  weekdayName (WeekDay t) ++ space :: monthName (MonthFromTime t) ++ space ::
  ToZeroPaddedDecimalString (DateFromTime t) 2 ++ space ::
  sign ++ ToZeroPaddedDecimalString (Z.abs yv) 4.

(** [toDateString()] of a Date with time value [tv]. *)
Definition toDateString (tv : TimeValue) : jsstring :=
  match tv with
  | InvalidTime => str "Invalid Date"
  | Time t => DateString (LocalTime t)
  end.

(** [new Date(year, month, day).toDateString()] in a zone. *)
Definition toDateStringIn (tza : zone) (year month day : Number) : jsstring :=
  match localMidnight year month day with
  | Some t =>
      match TimeClip (UTCIn tza t) with
      | Time u => DateString (LocalTimeIn tza u)
      | InvalidTime => str "Invalid Date"
      end
  | None => str "Invalid Date"
  end.

(** ** The dashboard *)

(** The Date that the dashboard builds from a stored date:
    [const [month, day, year] = date.split("/"); new Date(year, month - 1, day)] *)
Definition builtDate (s : jsstring) : TimeValue :=
  let parts := split s slash in
  let month := parts !! 0%nat in
  let day := parts !! 1%nat in
  let year := parts !! 2%nat in
  newDate (ToNumber year) (minus_one (ToNumber month)) (ToNumber day).

(** The local midnight that the three fields of a stored date stand for,
    if they are finite numbers. *)
Definition jobMidnight (s : jsstring) : option Z :=
  let parts := split s slash in
  localMidnight (ToNumber (parts !! 2%nat)) (minus_one (ToNumber (parts !! 0%nat)))
                (ToNumber (parts !! 1%nat)).

(** The callback of [jobDates] in a zone. *)
Definition jobDateKeyIn (tza : zone) (job : obj) : outcome (option jsstring) :=
  if truthy (get job "date") then
    match get job "date" with
    | VStr s =>
        let parts := split s slash in
        Returns (Some (toDateStringIn tza
                         (ToNumber (parts !! 2%nat))
                         (minus_one (ToNumber (parts !! 0%nat)))
                         (ToNumber (parts !! 1%nat))))
    | _ => Throws
    end
  else Returns None.

(** [const [month, day, year] = date.split("/");
     new Date(year, month - 1, day).toDateString()] *)
Definition dateKey (date : value) : outcome jsstring :=
  match date with
  | VStr s =>
      let parts := split s slash in
      let month := parts !! 0%nat in
      let day := parts !! 1%nat in
      let year := parts !! 2%nat in
      Returns (toDateString
                 (newDate (ToNumber year) (minus_one (ToNumber month)) (ToNumber day)))
  | _ => Throws
  end.

(** The callback of [jobDates]: the day key of a job, [null] ([None]) for a
    job without a date. *)
Definition jobDateKey (job : obj) : outcome (option jsstring) :=
  if truthy (get job "date") then Some <$> dateKey (get job "date")
  else Returns None.

(** [jobs.map(callback)] and [jobs.filter(callback)] for a callback that
    may throw: the first exception ends the evaluation. *)
Fixpoint mapOutcome {A B} (f : A -> outcome B) (l : list A) : outcome (list B) :=
  match l with
  | [] => Returns []
  | x :: l' => y ← f x; ys ← mapOutcome f l'; Returns (y :: ys)
  end.

Fixpoint filterOutcome {A} (f : A -> outcome bool) (l : list A) : outcome (list A) :=
  match l with
  | [] => Returns []
  | x :: l' =>
      b ← f x; ys ← filterOutcome f l';
      Returns (if b : bool then x :: ys else ys)
  end.

(** [.filter(Boolean)] on an array of strings and [null]s. *)
Definition filterBoolean (keys : list (option jsstring)) : list jsstring :=
  omap (fun k => match k with
                 | Some (c :: s) => Some (c :: s)
                 | _ => None
                 end) keys.

(** [jobDates]: the day keys of the jobs that have a date. *)
Definition jobDates (jobs : list obj) : outcome (list jsstring) :=
  filterBoolean <$> mapOutcome jobDateKey jobs.

(** The callback of [jobsForSelectedDate]: whether the job's day key is
    the date string of the selected date, a valid Date with time value
    [date]. *)
Definition onSelectedDate (date : Z) (job : obj) : outcome bool :=
  if truthy (get job "date") then
    jobDate ← dateKey (get job "date");
    Returns (bool_decide (jobDate = DateString (LocalTime date)))
  else Returns false.

(** [jobsForSelectedDate]: the jobs that the callback keeps. *)
Definition jobsForSelectedDate (jobs : list obj) (date : Z) : outcome (list obj) :=
  filterOutcome (onSelectedDate date) jobs.

(** A field of digits whose value is an integer that a Number holds
    exactly. *)
Definition determinedField (f : jsstring) : bool :=
  all_digits f && (decimal_value 0 f <=? 2 ^ 53).

(** Whether a job has a date that can be keyed: a falsy date or a string.
    Any other date has no [split]. *)
Definition keyable (job : obj) : bool :=
  match get job "date" with
  | VStr _ => true
  | v => negb (truthy v)
  end.

(** [array.includes(s)] *)
Definition arrayIncludes (l : list jsstring) (s : jsstring) : bool :=
  bool_decide (s ∈ l).

(** What a click on a calendar day does besides updating the state. *)
Inductive toggleEffect :=
  | NotCtrlClick
  | RemovedBlackout (dateString : jsstring)
  | AddedBlackout (dateString : jsstring)
  | CannotBlackout (dateString : jsstring).

(** [handleBlackoutToggle]: the next [blackoutDates] and what was logged or
    alerted.  [CannotBlackout] is the log line together with the alert. *)
Definition handleBlackoutToggle (jobDates blackoutDates : list jsstring)
    (clickedDate : Z) (ctrlKey : bool) : list jsstring * toggleEffect :=
  if ctrlKey then
    let dateString := DateString (LocalTime clickedDate) in
    let hasJobs := arrayIncludes jobDates dateString in
    if negb hasJobs then
      let isBlackout := arrayIncludes blackoutDates dateString in
      if isBlackout then
        (List.filter (fun d => negb (bool_decide (d = dateString))) blackoutDates,
         RemovedBlackout dateString)
      else (blackoutDates ++ [dateString], AddedBlackout dateString)
    else (blackoutDates, CannotBlackout dateString)
  else (blackoutDates, NotCtrlClick).

(** [tileClassName]: the class of a calendar tile, [null] as [None].  [now]
    is the time value of [new Date()]. *)
Definition tileClassName (jobDates blackoutDates : list jsstring) (now : Z)
    (date : Z) (view : string) : option string :=
  let dateString := DateString (LocalTime date) in
  let todayString := DateString (LocalTime now) in
  if bool_decide (view = "month"%string) then
    if bool_decide (dateString = todayString) then Some "today"%string
    else if arrayIncludes blackoutDates dateString then Some "blackout"%string
    else if arrayIncludes jobDates dateString then Some "highlight"%string
    else None
  else None.

(** ** Customer.jsx: selecting a job and adding one *)


(** [handleAddJob]: the document id and the record passed to [setDoc], or
    nothing when building the record throws (the error is logged).  [uuid]
    is what [uuidv4()] returned. *)
Definition handleAddJob (uuid : jsstring) (data : obj) : option (value * obj) :=
  let docId := VStr uuid in
  match formatDateForStorage (get data "date") with
  | Returns date =>
      let newJob :=
        <[ "id"%string := docId ]>
          (<[ "completed"%string := VBool false ]>
             (<[ "date"%string := date ]> data)) in
      Some (docId, newJob)
  | _ => None
  end.

(** ** The dashboard: loading jobs and completing one *)


(** [{ ...job, completed: true }] *)
Definition markCompleted (job : obj) : obj :=
  <[ "completed"%string := VBool true ]> job.

(** [markJobAsCompleted]: the next [jobs] and [selectedJob].  [updated]
    tells whether [updateDoc] succeeded; when it failed the error is logged
    and the state stays.  The previously selected job may be [null]. *)
Definition markJobAsCompleted (updated : bool) (jobId : value)
    (jobs : list obj) (selectedJob : option obj) : list obj * option obj :=
  if updated then
    (List.map (fun job => if strict_eq (get job "id") jobId
                          then markCompleted job else job) jobs,
     Some (markCompleted (default ∅ selectedJob)))
  else (jobs, selectedJob).

(** The number of identifiers that an import of [rows] takes from the
    generator: one for each row without a usable id. *)
Definition idsTaken (rows : list obj) : nat :=
  length (List.filter (fun row => negb (truthy (get row "id"))) rows).

(** * Properties *)

(** ** Strings: [includes], [split] and [join] *)

Lemma includes_false_iff (s : jsstring) (c : N) :
  includes s c = false <-> c ∉ s.
Proof.
  unfold includes. induction s as [|x s IH]; simpl.
  - split; [intros _ H; inversion H | done].
  - rewrite orb_false_iff, IH, not_elem_of_cons, N.eqb_neq. tauto.
Qed.

Lemma includes_app (a b : jsstring) (c : N) :
  includes (a ++ b) c = includes a c || includes b c.
Proof. unfold includes. apply existsb_app. Qed.

Lemma includes_cons (x : N) (s : jsstring) (c : N) :
  includes (x :: s) c = N.eqb c x || includes s c.
Proof. reflexivity. Qed.

Lemma split_not_nil (s : jsstring) (sep : N) : split s sep <> [].
Proof.
  destruct s as [|c s]; simpl; [done|].
  destruct (N.eqb c sep); [done|]. destruct (split s sep); done.
Qed.

Lemma split_without_sep (s : jsstring) (sep : N) :
  includes s sep = false -> split s sep = [s].
Proof.
  induction s as [|c s IH]; [done|].
  rewrite includes_cons, orb_false_iff. intros [Hc Hs]. simpl.
  rewrite N.eqb_sym, Hc, (IH Hs). reflexivity.
Qed.

Lemma split_app_sep (a b : jsstring) (sep : N) :
  includes a sep = false -> split (a ++ sep :: b) sep = a :: split b sep.
Proof.
  induction a as [|c a IH].
  - intros _. simpl. rewrite N.eqb_refl. reflexivity.
  - rewrite includes_cons, orb_false_iff. intros [Hc Ha]. simpl.
    rewrite N.eqb_sym, Hc, (IH Ha). reflexivity.
Qed.

Lemma join_split (s : jsstring) (sep : N) : join sep (split s sep) = s.
Proof.
  induction s as [|c s IH]; simpl; [done|].
  destruct (N.eqb_spec c sep) as [->|Hne].
  - pose proof (split_not_nil s sep) as Hnil.
    simpl. destruct (split s sep) as [|p ps]; [done|].
    simpl in IH |- *. by rewrite IH.
  - pose proof (split_not_nil s sep) as Hnil.
    destruct (split s sep) as [|p ps]; [done|].
    destruct ps as [|q ps]; simpl in IH |- *; by rewrite <- IH.
Qed.

Lemma split_fields_without_sep (s : jsstring) (sep : N) :
  Forall (fun p => includes p sep = false) (split s sep).
Proof.
  induction s as [|c s IH]; simpl.
  - by repeat constructor.
  - destruct (N.eqb_spec c sep) as [->|Hne].
    + by constructor.
    + pose proof (split_not_nil s sep) as Hnil.
      destruct (split s sep) as [|p ps]; [done|].
      inversion IH as [|?? Hp Hps]; subst. constructor; [|done].
      rewrite includes_cons, Hp, orb_false_r. apply N.eqb_neq. congruence.
Qed.

(** A string with a separator in it splits into at least two fields. *)
Lemma split_with_sep (s : jsstring) (sep : N) :
  includes s sep = true -> exists a b rest, split s sep = a :: b :: rest.
Proof.
  induction s as [|c s IH]; [done|].
  rewrite includes_cons. simpl split. destruct (N.eqb_spec c sep) as [->|Hne].
  - intros _. pose proof (split_not_nil s sep).
    destruct (split s sep) as [|p ps]; [done|]. by eexists _, _, _.
  - destruct (N.eqb_spec sep c) as [->|_]; [done|]. simpl. intros Hs.
    destruct (IH Hs) as (a & b & rest & ->). by eexists _, _, _.
Qed.

Lemma all_digits_without (s : jsstring) (c : N) :
  is_digit c = false -> all_digits s = true -> includes s c = false.
Proof.
  intros Hc Hs. apply includes_false_iff. intros Hin.
  unfold all_digits in Hs. rewrite forallb_forall in Hs.
  apply list_elem_of_In in Hin. specialize (Hs _ Hin). congruence.
Qed.

Lemma padStart_long (s : jsstring) (n : nat) (fill : N) :
  (n <= length s)%nat -> padStart s n fill = s.
Proof.
  intros H. unfold padStart. by replace (n - length s)%nat with 0%nat by lia.
Qed.

Lemma padStart_without (s : jsstring) (n : nat) (fill c : N) :
  c <> fill -> includes s c = false -> includes (padStart s n fill) c = false.
Proof.
  intros Hne Hs. unfold padStart. rewrite includes_app, Hs, orb_false_r.
  apply includes_false_iff. intros Hin. apply list_elem_of_In, repeat_spec in Hin.
  congruence.
Qed.

(** ** The date codec *)

(** The display form of a stored date of three or more fields. *)
Lemma formatDateForInput_fields (s m d : jsstring) (rest : list jsstring) :
  split s slash = m :: d :: rest ->
  formatDateForInput (VStr s) =
    Returns (VStr (ToString (rest !! 0%nat) ++ dash :: padStart m 2 zero_digit
                     ++ dash :: padStart d 2 zero_digit)).
Proof.
  intros Hsplit. unfold formatDateForInput.
  assert (Hs : s = join slash (m :: d :: rest)) by (by rewrite <- Hsplit, join_split).
  assert (Hinc : includes s slash = true).
  { destruct (includes s slash) eqn:E; [done|].
    apply split_without_sep in E. congruence. }
  assert (Ht : truthy (VStr s) = true) by (destruct s; [done | reflexivity]).
  rewrite Ht, Hinc, Hsplit. reflexivity.
Qed.

(** The storage form of a display date of three dash-free fields. *)
Lemma formatDateForStorage_fields (y m d : jsstring) :
  includes y dash = false -> includes m dash = false -> includes d dash = false ->
  formatDateForStorage (VStr (y ++ dash :: m ++ dash :: d)) =
    Returns (VStr (m ++ slash :: d ++ slash :: y)).
Proof.
  intros Hy Hm Hd. unfold formatDateForStorage.
  assert (Ht : truthy (VStr (y ++ dash :: m ++ dash :: d)) = true)
    by (destruct y; reflexivity).
  rewrite Ht. simpl negb.
  rewrite includes_app, includes_cons, N.eqb_refl, orb_true_r. simpl negb.
  cbv zeta. rewrite (split_app_sep y _ dash Hy), (split_app_sep m _ dash Hm),
    (split_without_sep d dash Hd).
  reflexivity.
Qed.

(** C7. A string that is empty or has no "/" is returned unchanged by
    [formatDateForInput], and a string that is empty or has no "-" is
    returned unchanged by [formatDateForStorage]: the malformed input
    passes through and nothing is thrown. *)
Theorem passThrough_unchanged (s : jsstring) :
  (s = [] \/ includes s slash = false ->
   formatDateForInput (VStr s) = Returns (VStr s)) /\
  (s = [] \/ includes s dash = false ->
   formatDateForStorage (VStr s) = Returns (VStr s)).
Proof.
  split; intros [-> | H]; try reflexivity.
  - unfold formatDateForInput. rewrite H. by destruct s.
  - unfold formatDateForStorage. rewrite H. by destruct s.
Qed.

Lemma passThrough_unchanged_witness :
  formatDateForInput (VStr (str "2024-01-05")) = Returns (VStr (str "2024-01-05")) /\
  formatDateForStorage (VStr (str "01/05/2024")) = Returns (VStr (str "01/05/2024")).
Proof.
  split.
  - apply (proj1 (passThrough_unchanged (str "2024-01-05"))). right. reflexivity.
  - apply (proj2 (passThrough_unchanged (str "01/05/2024"))). right. reflexivity.
Defined.

(** Values that are not strings: the falsy ones pass through as well, the
    truthy ones have no [includes] method. *)
Lemma formatDate_falsy (v : value) :
  truthy v = false ->
  formatDateForInput v = Returns v /\ formatDateForStorage v = Returns v.
Proof.
  intros H. unfold formatDateForInput, formatDateForStorage. by rewrite H.
Qed.

Lemma formatDateForStorage_returns (v : value) :
  (exists r, formatDateForStorage v = Returns r) <->
  (truthy v = false \/ exists s, v = VStr s).
Proof.
  unfold formatDateForStorage. split.
  - intros [r Hr]. destruct v as [| |b|z|s]; eauto.
    + destruct b; [done | by left].
    + destruct (truthy (VNum z)) eqn:E; [done | by left].
  - intros [H | [s ->]].
    + rewrite H. eauto.
    + destruct (negb (truthy (VStr s))); [eauto|].
      destruct (negb (includes s dash)); eauto.
Qed.

(** C1, as the code has it.  The round trip of a well-formed stored date
    returns the date with month and day padded to two digits; it returns
    the date itself when month and day are written with two digits. *)
Theorem roundTrip_wellFormed (s : jsstring) :
  wellFormedDate s = true ->
  roundTrip s = Returns (VStr (padded s)) /\
  (zeroPadded s = true -> roundTrip s = Returns (VStr s)).
Proof.
  unfold wellFormedDate, zeroPadded, padded, roundTrip.
  destruct (split s slash) as [|m [|d [|y [|? ?]]]] eqn:E; try done.
  rewrite !andb_true_iff. intros [[[[[[[Hm Hd] Hy] _] _] _] _] _].
  rewrite (formatDateForInput_fields s m d [y] E).
  assert (Hdash : forall p, all_digits p = true ->
            includes (padStart p 2 zero_digit) dash = false).
  { intros p Hp. apply padStart_without; [done|].
    by apply all_digits_without. }
  assert (Hrt : formatDateForStorage
            (VStr (y ++ dash :: padStart m 2 zero_digit ++ dash :: padStart d 2 zero_digit))
          = Returns (VStr (padStart m 2 zero_digit ++ slash ::
                           padStart d 2 zero_digit ++ slash :: y))).
  { apply formatDateForStorage_fields; auto. by apply all_digits_without. }
  split.
  - exact Hrt.
  - rewrite !Nat.eqb_eq. intros [Lm Ld].
    change (formatDateForStorage
      (VStr (y ++ dash :: padStart m 2 zero_digit ++ dash :: padStart d 2 zero_digit))
      = Returns (VStr s)).
    rewrite Hrt, !padStart_long by lia.
    rewrite <- (join_split s slash), E. reflexivity.
Qed.

Lemma roundTrip_wellFormed_witness :
  roundTrip (str "11/05/2024") = Returns (VStr (padded (str "11/05/2024"))) /\
  (zeroPadded (str "11/05/2024") = true ->
   roundTrip (str "11/05/2024") = Returns (VStr (str "11/05/2024"))).
Proof. apply (roundTrip_wellFormed (str "11/05/2024")). reflexivity. Defined.

(** C1, as stated, fails on a single-digit month or day: the well-formed
    "1/5/2024" comes back as "01/05/2024". *)
Lemma roundTrip_unpadded_differs :
  wellFormedDate (str "1/5/2024") = true /\
  roundTrip (str "1/5/2024") = Returns (VStr (str "01/05/2024")) /\
  str "01/05/2024" <> str "1/5/2024".
Proof. repeat split. discriminate. Qed.

(** ** The search *)

Lemma str_compare_refl (a : jsstring) : str_compare a a = Eq.
Proof. induction a as [|x a IH]; simpl; [done|]. by rewrite N.compare_refl. Qed.

Lemma str_compare_eq (a b : jsstring) : str_compare a b = Eq <-> a = b.
Proof.
  split; [|intros ->; apply str_compare_refl].
  revert b. induction a as [|x a IH]; intros [|y b]; simpl; try done.
  destruct (N.compare_spec x y) as [->| |]; try done.
  intros H. by rewrite (IH _ H).
Qed.

Lemma str_compare_prefix (p rest : jsstring) : str_compare p (p ++ rest) <> Gt.
Proof.
  induction p as [|x p IH]; simpl.
  - by destruct rest.
  - by rewrite N.compare_refl.
Qed.

Lemma str_le_prefix (p rest : jsstring) : str_le p (p ++ rest) = true.
Proof.
  unfold str_le. pose proof (str_compare_prefix p rest).
  by destruct (str_compare p (p ++ rest)).
Qed.

Lemma str_lt_irrefl (a : jsstring) : str_lt a a = false.
Proof. unfold str_lt. by rewrite str_compare_refl. Qed.

(** What the two constraints select: a document whose [name] is a string
    in the closed range from the input to the input followed by U+F8FF. *)
Lemma searchQuery_satisfied (data : obj) (input : jsstring) :
  forallb (satisfies data) (searchQuery input) = true <->
  exists name, data !! "name"%string = Some (VStr name) /\
    str_le input name = true /\ str_le name (input ++ [sentinel]) = true.
Proof.
  unfold searchQuery, satisfies. simpl.
  destruct (data !! "name"%string) as [[| | | |name]|] eqn:E;
    try (split; [done | by intros (? & ? & _)]).
  rewrite andb_true_r, andb_true_iff. split.
  - intros [H1 H2]. by exists name.
  - intros (n & Hn & H1 & H2). by inversion Hn; subst.
Qed.

(** C8, as the code has it.  For a non-empty input the matching jobs are
    the stored jobs whose name is a string [n] with [input <= n] and
    [n <= input + U+F8FF], both bounds included, each with its id, in the
    order of the collection. *)
Theorem handleSearch_closed_range (jobs : list document) (input : jsstring) :
  input <> [] ->
  snd (handleSearch jobs input) =
    List.map withId
      (List.filter
         (fun d => match doc_data d !! "name"%string with
                   | Some (VStr n) =>
                       str_le input n && str_le n (input ++ [sentinel])
                   | _ => false
                   end) jobs)
  /\ forall name, selects input name = true <->
       str_le input name = true /\ str_le name (input ++ [sentinel]) = true.
Proof.
  intros Hne. split.
  - unfold handleSearch. destruct input as [|c input]; [done|]. simpl snd.
    unfold getDocs. f_equal. apply filter_ext. intros d.
    unfold searchQuery, satisfies. simpl.
    destruct (doc_data d !! "name"%string) as [[| | | |n]|]; try reflexivity.
    by rewrite andb_true_r.
  - intros name. unfold selects. rewrite searchQuery_satisfied.
    split.
    + intros (n & Hn & H). rewrite lookup_singleton_eq in Hn. by inversion Hn; subst.
    + intros H. exists name. by rewrite lookup_singleton_eq.
Qed.

Lemma handleSearch_closed_range_witness :
  snd (handleSearch [Doc (str "j1") {[ "name"%string := VStr (str "Ann") ]}] (str "A")) =
    [ withId (Doc (str "j1") {[ "name"%string := VStr (str "Ann") ]}) ]
  /\ (selects (str "A") (str "Ann") = true <->
      str_le (str "A") (str "Ann") = true /\
      str_le (str "Ann") (str "A" ++ [sentinel]) = true).
Proof.
  pose proof (handleSearch_closed_range
    [Doc (str "j1") {[ "name"%string := VStr (str "Ann") ]}] (str "A")) as H.
  destruct H as [H1 H2]; [discriminate|].
  split; [exact H1 | exact (H2 (str "Ann"))].
Defined.

(** An empty input sends no query and clears the matches. *)
Lemma handleSearch_empty (jobs : list document) :
  handleSearch jobs [] = ([], []).
Proof. reflexivity. Qed.

(** C8, as stated, fails at the upper end of the range: the job named "a"
    followed by U+F8FF is selected by the search for "a", and it is not
    strictly below that bound. *)
Lemma search_upper_bound_included :
  selects (str "a") (str "a" ++ [sentinel]) = true /\
  snd (handleSearch
         [Doc (str "j1") {[ "name"%string := VStr (str "a" ++ [sentinel]) ]}]
         (str "a")) =
    [ withId (Doc (str "j1") {[ "name"%string := VStr (str "a" ++ [sentinel]) ]}) ] /\
  str_lt (str "a" ++ [sentinel]) (str "a" ++ [sentinel]) = false.
Proof. repeat split. Qed.

(** ** CSV import *)

Lemma storable_returns (row : obj) :
  storable row = true <-> exists r, formatDateForStorage (get row "date") = Returns r.
Proof.
  rewrite formatDateForStorage_returns. unfold storable.
  destruct (get row "date") as [| |b|z|s]; simpl; try (split; eauto; done).
  - rewrite negb_true_iff. split; [by left|]. by intros [?|[? ?]].
  - rewrite negb_true_iff. split; [by left|]. by intros [?|[? ?]].
Qed.

Lemma strict_eq_get (o : obj) (k : string) (s : jsstring) :
  s <> [] ->
  strict_eq (get o k) (VStr s) = bool_decide (o !! k = Some (VStr s)).
Proof.
  intros Hs. unfold strict_eq, get. apply bool_decide_ext.
  destruct (o !! k) as [v|]; simpl; split; congruence.
Qed.

Lemma docPath_truthy (v : value) : is_Some (docPath v) -> truthy v = true.
Proof.
  destruct v as [| |b|z|s]; simpl; try (by intros [? ?]).
  destruct s; [|done]. by intros [? ?].
Qed.

Lemma hasDoubleSlash_without (s : jsstring) :
  includes s slash = false -> hasDoubleSlash s = false.
Proof.
  induction s as [|a s IH]; [done|].
  rewrite includes_cons. intros [Ha Hs]%orb_false_iff.
  cbn [hasDoubleSlash]. destruct s as [|b s]; [done|].
  rewrite (IH Hs), orb_false_r. rewrite N.eqb_sym in Ha. by rewrite Ha.
Qed.

(** A plain id names the document of that id in the collection. *)
Lemma docPath_plain (s : jsstring) :
  plainId s = true -> docPath (VStr s) = Some [str "jobs"; s].
Proof.
  unfold plainId. rewrite andb_true_iff, !negb_true_iff.
  intros [Hlen Hs]. unfold docPath.
  rewrite (hasDoubleSlash_without s Hs), (split_without_sep s slash Hs).
  cbn [List.filter]. by rewrite Hlen.
Qed.

(** The id passed to [doc]: the row's own when it is truthy, else a fresh
    one. *)
Lemma importRow_docId (uuid : jsstring) (row : obj) :
  js_or (get row "id") (VStr uuid) =
  if truthy (get row "id") then get row "id" else VStr uuid.
Proof. unfold js_or. by destruct (truthy (get row "id")). Qed.

(** A row is written exactly when its record and its document reference
    can be built. *)
Lemma importRow_completed (uuid : jsstring) (row : obj) :
  match importRow uuid row with
  | Some (docId, r) =>
      storable row = true /\
      docId = js_or (get row "id") (VStr uuid) /\
      is_Some (docPath docId) /\
      r !! "completed"%string = Some (VBool (completedIsTrue row))
  | None =>
      storable row = false \/ docPath (js_or (get row "id") (VStr uuid)) = None
  end.
Proof.
  unfold importRow.
  destruct (formatDateForStorage (get row "date")) as [date|] eqn:E.
  - destruct (docPath (js_or (get row "id") (VStr uuid))) as [path|] eqn:Ep;
      [|by right].
    split; [apply storable_returns; eauto|]. split; [done|]. split; [eauto|].
    rewrite lookup_insert_ne, lookup_insert_eq by done.
    rewrite strict_eq_get by done. unfold completedIsTrue, js_or.
    by destruct (bool_decide _).
  - left. destruct (storable row) eqn:S; [|done].
    apply storable_returns in S as [r Hr]. congruence.
Qed.

Lemma importRow_written (uuid : jsstring) (row : obj) :
  storable row = true -> is_Some (docPath (js_or (get row "id") (VStr uuid))) ->
  is_Some (importRow uuid row).
Proof.
  intros Hs [path Hp]. pose proof (importRow_completed uuid row) as H.
  destruct (importRow uuid row) as [w|]; [eauto|].
  destruct H as [H|H]; congruence.
Qed.

(** A row with an id of its own is written or not whatever the generator
    would give. *)
Lemma importRow_own_id (uuid uuid' : jsstring) (row : obj) :
  truthy (get row "id") = true -> importRow uuid row = importRow uuid' row.
Proof. intros H. unfold importRow, js_or. by rewrite H. Qed.

Lemma rowsWritten_sublist (uuidv4 : nat -> jsstring) (n : nat) (rows : list obj) :
  rowsWritten uuidv4 n rows `sublist_of` rows.
Proof.
  revert n. induction rows as [|row rows IH]; intros n; simpl; [done|].
  destruct (importRow (uuidv4 n) row); by constructor.
Qed.

Lemma rowsWritten_elem (uuidv4 : nat -> jsstring) (n : nat) (rows : list obj)
    (row : obj) :
  row ∈ rowsWritten uuidv4 n rows ->
  row ∈ rows /\ exists k, is_Some (importRow (uuidv4 k) row).
Proof.
  revert n. induction rows as [|r rows IH]; intros n; simpl.
  - by intros H%not_elem_of_nil.
  - destruct (importRow (uuidv4 n) r) as [w|] eqn:E.
    + intros [->|H]%elem_of_cons.
      * split; [left|]. exists n. by rewrite E.
      * destruct (IH _ H) as [Hin Hk]. split; [by right | done].
    + intros H. destruct (IH _ H) as [Hin Hk]. split; [by right | done].
Qed.

(** The rows that have a date a record can hold and, if an id of their
    own, one that names a document. *)
Lemma rowsWritten_all (uuidv4 : nat -> jsstring) (n : nat) (rows : list obj) :
  (forall k, plainId (uuidv4 k) = true) ->
  Forall (fun row => storable row = true /\
                     (truthy (get row "id") = false \/ hasDocId row = true)) rows ->
  rowsWritten uuidv4 n rows = rows.
Proof.
  intros Hgen H. revert n.
  induction H as [|row rows [Hs Hid] _ IH]; intros n; simpl; [done|].
  destruct (importRow_written (uuidv4 n) row Hs) as [w ->]; [|by rewrite IH].
  rewrite importRow_docId. destruct Hid as [Hid|Hid].
  - rewrite Hid. rewrite docPath_plain; eauto.
  - apply bool_decide_eq_true in Hid.
    by rewrite (docPath_truthy _ Hid).
Qed.

(** C9. The import passes to [setDoc] one record for each row for which a
    record and a document reference can be built, in the order of the
    rows, and the [completed] field of that record is the boolean [true]
    when the row's [completed] column is the literal text "true", and the
    boolean [false] for every other row (another text, another casing, or
    no such column).  The written rows are rows of the file, in its order;
    a row is left out exactly when its date is neither missing nor a
    string, or the id it is to be written under names no document; with
    plain ids from the generator, every row with a date a record can hold
    and no id, or an id of its own that names a document, is written. *)
Theorem handleFileUpload_completed (uuidv4 : nat -> jsstring) (n : nat)
    (rows : list obj) :
  Forall2
    (fun row w => snd w !! "completed"%string = Some (VBool (completedIsTrue row)))
    (rowsWritten uuidv4 n rows) (handleFileUpload uuidv4 n rows) /\
  rowsWritten uuidv4 n rows `sublist_of` rows /\
  (forall row, row ∈ rowsWritten uuidv4 n rows ->
     storable row = true /\
     exists k, is_Some (docPath (js_or (get row "id") (VStr (uuidv4 k))))) /\
  ((forall k, plainId (uuidv4 k) = true) ->
   Forall (fun row => storable row = true /\
                      (truthy (get row "id") = false \/ hasDocId row = true)) rows ->
   rowsWritten uuidv4 n rows = rows).
Proof.
  split; [|split; [apply rowsWritten_sublist|split; [|apply rowsWritten_all]]].
  - revert n. induction rows as [|row rows IH]; intros n; simpl; [constructor|].
    pose proof (importRow_completed (uuidv4 n) row) as H.
    destruct (importRow (uuidv4 n) row) as [[docId r]|]; [|apply IH].
    destruct H as (_ & _ & _ & Hc). constructor; [exact Hc | apply IH].
  - intros row [_ [k Hk]]%rowsWritten_elem.
    pose proof (importRow_completed (uuidv4 k) row) as H.
    destruct (importRow (uuidv4 k) row) as [[docId r]|]; [|by destruct Hk].
    destruct H as (Hs & -> & Hp & _). split; [done|]. by exists k.
Qed.

(** A file of four rows: "true" under an id of its own, "TRUE" without an
    id, no column at all, and a row whose id names no document. *)
Lemma handleFileUpload_completed_witness :
  let uuidv4 := fun k : nat => 117%N :: repeat 48%N k in
  let r1 : obj := {[ "id"%string := VStr (str "a");
                     "completed"%string := VStr (str "true");
                     "date"%string := VStr (str "2024-01-05") ]} in
  let r2 : obj := {[ "completed"%string := VStr (str "TRUE");
                     "date"%string := VStr (str "2024-01-05") ]} in
  let r3 : obj := {[ "date"%string := VStr (str "01/05/2024") ]} in
  let r4 : obj := {[ "id"%string := VStr (str "a/b");
                     "completed"%string := VStr (str "true") ]} in
  rowsWritten uuidv4 0 [r1; r2; r3] = [r1; r2; r3] /\
  rowsWritten uuidv4 0 [r1; r4; r2] = [r1; r2] /\
  ((λ w, snd w !! "completed"%string) <$> handleFileUpload uuidv4 0 [r1; r4; r2; r3])
  = [Some (VBool true); Some (VBool false); Some (VBool false)].
Proof.
  intros uuidv4 r1 r2 r3 r4.
  destruct (handleFileUpload_completed uuidv4 0 [r1; r2; r3]) as (_ & _ & _ & H).
  split; [|split; [vm_compute; reflexivity|]].
  - apply H.
    + intros k. unfold uuidv4, plainId. cbn [length Nat.eqb negb andb].
      rewrite includes_cons. apply negb_true_iff, orb_false_iff. split; [done|].
      apply includes_false_iff. intros Hin%list_elem_of_In%repeat_spec. done.
    + repeat (apply List.Forall_cons;
                [split; [reflexivity
                        | first [left; vm_compute; reflexivity
                                | right; vm_compute; reflexivity]]|]).
      apply List.Forall_nil.
  - vm_compute. reflexivity.
Defined.

Example completed_true_text :
  completedIsTrue {[ "completed"%string := VStr (str "true") ]} = true.
Proof. reflexivity. Qed.

Example completed_other_texts :
  completedIsTrue {[ "completed"%string := VStr (str "false") ]} = false /\
  completedIsTrue {[ "completed"%string := VStr (str "TRUE") ]} = false /\
  completedIsTrue (∅ : obj) = false.
Proof. repeat split. Qed.

Lemma handleFileUpload_length (uuidv4 : nat -> jsstring) (n : nat)
    (rows : list obj) :
  length (handleFileUpload uuidv4 n rows) = length (rowsWritten uuidv4 n rows).
Proof.
  revert n. induction rows as [|row rows IH]; intros n; simpl; [done|].
  destruct (importRow (uuidv4 n) row); simpl; by rewrite IH.
Qed.

(** ** Editing a job *)

(** What is written as [completed]: the loaded value when it is truthy,
    [false] otherwise. *)
Lemma onSubmit_written (job data : obj) :
  match onSubmit (Some job) data with
  | UpdateDoc docId updated =>
      docId = get job "id" /\
      updated !! "completed"%string =
        Some (js_or (get job "completed") (VBool false)) /\
      (exists date, formatDateForStorage (get data "date") = Returns date /\
                    updated !! "date"%string = Some date) /\
      forall k, k <> "completed"%string -> k <> "date"%string ->
                updated !! k = data !! k
  | SubmitError => forall r, formatDateForStorage (get data "date") <> Returns r
  | NoSelection => False
  end.
Proof.
  unfold onSubmit.
  destruct (formatDateForStorage (get data "date")) as [date|] eqn:E; try done.
  repeat split.
  - by rewrite lookup_insert_eq.
  - exists date. split; [done|]. by rewrite lookup_insert_ne, lookup_insert_eq.
  - intros k H1 H2. by rewrite !lookup_insert_ne.
Qed.

(** C10. A submitted edit of a selected job passes to [updateDoc] a
    record whose [completed] is the loaded job's [completed] ([false] when
    the loaded job has none), whatever the form data hold; every other field
    but the date is written as submitted; and the record is passed whenever
    the submitted date is a string or missing.  The loaded [completed] is
    a boolean, or any other truthy value. *)
Theorem onSubmit_preserves_completed (job data : obj) :
  (job !! "completed"%string = None \/
   exists v, job !! "completed"%string = Some v /\
             (truthy v = true \/ v = VBool false)) ->
  (forall docId updated, onSubmit (Some job) data = UpdateDoc docId updated ->
     updated !! "completed"%string =
       Some (default (VBool false) (job !! "completed"%string)) /\
     forall k, k <> "completed"%string -> k <> "date"%string ->
               updated !! k = data !! k) /\
  (storable data = true ->
   exists updated, onSubmit (Some job) data = UpdateDoc (get job "id") updated).
Proof.
  intros Hc. pose proof (onSubmit_written job data) as H. split.
  - intros docId updated E. rewrite E in H. destruct H as (_ & H & _ & Hk).
    split; [|exact Hk]. rewrite H. f_equal. unfold js_or, get.
    destruct Hc as [-> | (v & -> & [Hv | ->])]; simpl; [done| |done].
    by rewrite Hv.
  - intros Hs. apply storable_returns in Hs as [r Hr].
    destruct (onSubmit (Some job) data) as [|docId updated|] eqn:E.
    + done.
    + destruct H as (-> & _). by exists updated.
    + by specialize (H r).
Qed.

(** A completed job, edited with form data that say otherwise. *)
Lemma onSubmit_preserves_completed_witness :
  let job : obj := {[ "id"%string := VStr (str "j1");
                      "completed"%string := VBool true ]} in
  let data : obj := {[ "name"%string := VStr (str "Ann");
                       "date"%string := VStr (str "2024-01-05");
                       "completed"%string := VBool false ]} in
  (forall docId updated, onSubmit (Some job) data = UpdateDoc docId updated ->
     updated !! "completed"%string = Some (VBool true) /\
     forall k, k <> "completed"%string -> k <> "date"%string ->
               updated !! k = data !! k) /\
  exists updated, onSubmit (Some job) data = UpdateDoc (get job "id") updated.
Proof.
  intros job data.
  destruct (onSubmit_preserves_completed job data) as [H1 H2].
  - right. exists (VBool true). split; [reflexivity | left; reflexivity].
  - split; [exact H1 | apply H2; reflexivity].
Defined.

(** A loaded [completed] that is falsy without being [false] (a [null], a
    zero, an empty text) is written as [false]. *)
Example onSubmit_falsy_completed :
  onSubmit (Some {[ "id"%string := VStr (str "j1"); "completed"%string := VNull ]})
           {[ "date"%string := VStr (str "2024-01-05") ]}
  = UpdateDoc (VStr (str "j1"))
      {[ "date"%string := VStr (str "01/05/2024");
         "completed"%string := VBool false ]}.
Proof. vm_compute. reflexivity. Qed.

(** Without a selected job nothing is written. *)
Lemma onSubmit_no_selection (data : obj) : onSubmit None data = NoSelection.
Proof. reflexivity. Qed.

(** ** Dates *)

Lemma weekdayName_length (d : Z) : length (weekdayName d) = 3%nat.
Proof. unfold weekdayName. repeat case_match; reflexivity. Qed.

Lemma monthName_length (m : Z) : length (monthName m) = 3%nat.
Proof. unfold monthName. repeat case_match; reflexivity. Qed.


Lemma DateString_not_empty (t : Z) : DateString t <> [].
Proof.
  unfold DateString. intros H. apply (f_equal length) in H.
  rewrite length_app, weekdayName_length in H. discriminate H.
Qed.

(** The decimal string of a number reads back as the number. *)
Lemma decimal_digits_value (fuel : nat) (n : Z) (acc : jsstring) :
  0 <= n < 2 ^ Z.of_nat fuel ->
  decimal_value 0 (decimal_digits fuel n acc) = decimal_value n acc.
Proof.
  revert n acc. induction fuel as [|fuel IH]; intros n acc Hn.
  - simpl in *. by replace n with 0 by lia.
  - cbn [decimal_digits]. cbv zeta.
    assert (Hdigit : Z.of_N (48 + Z.to_N (n mod 10)) - 48 = n mod 10).
    { pose proof (Z.mod_pos_bound n 10 ltac:(lia)). lia. }
    destruct (Z.ltb_spec n 10) as [Hlt|Hge].
    + cbn [decimal_value]. rewrite Hdigit, Z.mod_small by lia. f_equal; lia.
    + rewrite IH.
      * cbn [decimal_value]. rewrite Hdigit.
        pose proof (Z.div_mod n 10 ltac:(lia)). f_equal; lia.
      * rewrite Nat2Z.inj_succ, Z.pow_succ_r in Hn by lia.
        split; [apply Z.div_pos; lia|].
        apply Z.div_lt_upper_bound; lia.
Qed.

Lemma decimal_value_zeros (k : nat) (s : jsstring) :
  decimal_value 0 (repeat zero_digit k ++ s) = decimal_value 0 s.
Proof. induction k as [|k IH]; simpl; [done|]. exact IH. Qed.

Lemma ToZeroPaddedDecimalString_value (n : Z) (minLength : nat) :
  0 <= n -> decimal_value 0 (ToZeroPaddedDecimalString n minLength) = n.
Proof.
  intros Hn. unfold ToZeroPaddedDecimalString, padStart.
  rewrite decimal_value_zeros, decimal_digits_value; [done|].
  split; [done|]. rewrite Nat2Z.inj_succ, Z2Nat.id by apply Z.log2_nonneg.
  destruct (Z.eq_dec n 0) as [->|Hne]; [done|].
  apply Z.log2_spec. lia.
Qed.

(** ** The calendar

    [YearFromTime] is the year of the language definition: the largest
    year that starts no later than the time value. *)

Lemma DayFromYear_succ (y : Z) : DayFromYear (y + 1) = DayFromYear y + DaysInYear y.
Proof.
  unfold DayFromYear, DaysInYear.
  destruct (Z.eqb_spec (y mod 4) 0), (Z.eqb_spec (y mod 100) 0),
    (Z.eqb_spec (y mod 400) 0); cbn [negb];
  replace (y + 1 - 1969) with (y - 1968) by lia;
  replace (y + 1 - 1970) with (y - 1969) by lia;
  replace (y + 1 - 1901) with (y - 1900) by lia;
  replace (y + 1 - 1601) with (y - 1600) by lia;
  Z.div_mod_to_equations; lia.
Qed.

Lemma DayFromYear_mono (y y' : Z) : y <= y' -> DayFromYear y <= DayFromYear y'.
Proof. unfold DayFromYear. intros. Z.div_mod_to_equations. lia. Qed.

Lemma YearFromTime_spec (t : Z) :
  DayFromYear (YearFromTime t) <= Day t < DayFromYear (YearFromTime t + 1).
Proof.
  unfold YearFromTime. cbv zeta. generalize (Day t). intros d.
  set (y := 1970 + d * 400 / 146097).
  assert (Hy : 146097 * (y - 1970) <= d * 400 < 146097 * (y - 1970) + 146097).
  { unfold y. pose proof (Z.div_mod (d * 400) 146097 ltac:(lia)).
    pose proof (Z.mod_pos_bound (d * 400) 146097 ltac:(lia)). lia. }
  clearbody y.
  destruct (Z.ltb_spec d (DayFromYear y));
    [|destruct (Z.leb_spec (DayFromYear (y + 1)) d)].
  all: unfold DayFromYear in *.
  all: Z.div_mod_to_equations; lia.
Qed.

Lemma YearFromTime_unique (t y : Z) :
  DayFromYear y <= Day t < DayFromYear (y + 1) -> YearFromTime t = y.
Proof.
  intros H. pose proof (YearFromTime_spec t) as S.
  destruct (Z.lt_trichotomy (YearFromTime t) y) as [L|[E|G]]; [|done|].
  - pose proof (DayFromYear_mono (YearFromTime t + 1) y ltac:(lia)). lia.
  - pose proof (DayFromYear_mono (y + 1) (YearFromTime t) ltac:(lia)). lia.
Qed.

Lemma Day_MakeDate (d : Z) : Day (MakeDate d 0) = d.
Proof. unfold Day, MakeDate, msPerDay. rewrite Z.add_0_r. by apply Z.div_mul. Qed.

(** A date of the calendar keys to itself: for a month from 0 to 11 and a
    day of that month, the Date built from them has that year, month and
    day. *)
Lemma MakeDay_calendar_date (y m d : Z) :
  0 <= m <= 11 ->
  1 <= d <= daysInMonth m (if DaysInYear y =? 366 then 1 else 0) ->
  let t := MakeDate (MakeDay y m d) 0 in
  YearFromTime t = y /\ MonthFromTime t = m /\ DateFromTime t = d.
Proof.
  intros Hm Hd t.
  assert (Hday : Day t = DayFromYear y +
            monthStart m (if DaysInYear y =? 366 then 1 else 0) + d - 1).
  { unfold t. rewrite Day_MakeDate. unfold MakeDay.
    rewrite (Z.div_small m 12), (Z.mod_small m 12), Z.add_0_r by lia. reflexivity. }
  assert (Hleap : DaysInYear y = 365 \/ DaysInYear y = 366).
  { unfold DaysInYear. repeat case_match; auto. }
  assert (Hy : YearFromTime t = y).
  { apply YearFromTime_unique. rewrite Hday, DayFromYear_succ.
    assert (m = 0 \/ m = 1 \/ m = 2 \/ m = 3 \/ m = 4 \/ m = 5 \/ m = 6 \/
            m = 7 \/ m = 8 \/ m = 9 \/ m = 10 \/ m = 11) as Hcases by lia.
    destruct Hleap as [E|E]; rewrite E in *; simpl in Hd |- *;
      repeat (destruct Hcases as [->|Hcases]); try subst m;
      simpl in Hd |- *; lia. }
  assert (Hw : DayWithinYear t =
            monthStart m (if DaysInYear y =? 366 then 1 else 0) + d - 1).
  { unfold DayWithinYear. rewrite Hy, Hday. lia. }
  split; [exact Hy|].
  unfold DateFromTime, MonthFromTime, InLeapYear. rewrite Hw, Hy.
  assert (m = 0 \/ m = 1 \/ m = 2 \/ m = 3 \/ m = 4 \/ m = 5 \/ m = 6 \/
          m = 7 \/ m = 8 \/ m = 9 \/ m = 10 \/ m = 11) as Hcases by lia.
  destruct Hleap as [E|E]; rewrite E in *; simpl in Hd |- *;
    repeat (destruct Hcases as [->|Hcases]); try subst m;
    simpl in Hd |- *;
    repeat (match goal with
            | |- context [?a <? ?b] => destruct (Z.ltb_spec a b); try lia
            end); split; simpl; lia.
Qed.

(** ** Day keys *)

Lemma newDate_NaN_year (m d : Number) : newDate NaN m d = InvalidTime.
Proof. reflexivity. Qed.

(** An integer of magnitude up to 2^53 is a Number as it is. *)
Lemma roundRatio_integer (n : Z) :
  Z.abs n <= 2 ^ 53 -> roundRatio n 1 = Finite n 0.
Proof.
  intros H. unfold roundRatio. apply Z.leb_le in H. by rewrite H.
Qed.

Lemma is_digit_cases (c : N) :
  is_digit c = true ->
  (c = 48 \/ c = 49 \/ c = 50 \/ c = 51 \/ c = 52 \/
   c = 53 \/ c = 54 \/ c = 55 \/ c = 56 \/ c = 57)%N.
Proof.
  unfold is_digit. rewrite andb_true_iff, N.leb_le, N.leb_le. lia.
Qed.

Lemma digit_not_white_space (c : N) :
  is_digit c = true -> isStrWhiteSpaceChar c = false.
Proof.
  intros H. apply is_digit_cases in H.
  repeat (destruct H as [->|H]; [reflexivity|]). by subst.
Qed.

Lemma dropWhile_digits (s : jsstring) :
  all_digits s = true -> dropWhile isStrWhiteSpaceChar s = s.
Proof.
  destruct s as [|c s]; [done|]. simpl.
  intros [Hc _]%andb_true_iff. by rewrite digit_not_white_space.
Qed.

Lemma all_digits_rev (s : jsstring) :
  all_digits s = true -> all_digits (rev s) = true.
Proof.
  unfold all_digits. rewrite !forallb_forall. intros H c Hc.
  apply H. by apply in_rev.
Qed.

Lemma trimString_digits (s : jsstring) :
  all_digits s = true -> trimString s = s.
Proof.
  intros H. unfold trimString. rewrite (dropWhile_digits s H).
  rewrite (dropWhile_digits (rev s)) by by apply all_digits_rev.
  apply rev_involutive.
Qed.

Lemma spanDigits_digits (s : jsstring) :
  all_digits s = true -> spanDigits s = (s, []).
Proof.
  induction s as [|c s IH]; [done|]. simpl.
  intros [Hc Hs]%andb_true_iff. by rewrite Hc, (IH Hs).
Qed.

Lemma nonDecimalLiteral_digits (s : jsstring) :
  all_digits s = true -> nonDecimalLiteral s = None.
Proof.
  intros H. unfold nonDecimalLiteral.
  repeat case_match; try done; subst; by cbn in H.
Qed.

Lemma decimal_value_nonneg (s : jsstring) (a : Z) :
  all_digits s = true -> 0 <= a -> 0 <= decimal_value a s.
Proof.
  revert a. induction s as [|c s IH]; intros a Hs Ha; simpl; [done|].
  simpl in Hs. apply andb_true_iff in Hs as [Hc Hs].
  apply IH; [done|]. unfold is_digit in Hc.
  rewrite andb_true_iff, N.leb_le, N.leb_le in Hc. lia.
Qed.

(** A field of digits converts to the integer it spells. *)
Lemma StringToNumber_determined (f : jsstring) :
  determinedField f = true -> StringToNumber f = Finite (decimal_value 0 f) 0.
Proof.
  unfold determinedField. rewrite andb_true_iff, Z.leb_le. intros [Hf Hv].
  pose proof (decimal_value_nonneg f 0 Hf ltac:(lia)) as H0.
  unfold StringToNumber. rewrite (trimString_digits f Hf).
  destruct f as [|c f]; [done|].
  rewrite (nonDecimalLiteral_digits _ Hf). unfold strDecimalLiteral.
  assert (Hc : is_digit c = true) by (simpl in Hf; by apply andb_true_iff in Hf as [? _]).
  assert (Hsign : match c :: f with
                  | 45%N :: r => (true, r)
                  | 43%N :: r => (false, r)
                  | _ => (false, c :: f)
                  end = (false, c :: f)).
  { apply is_digit_cases in Hc.
    repeat (destruct Hc as [->|Hc]; [reflexivity|]). by subst. }
  rewrite Hsign.
  rewrite bool_decide_eq_false_2.
  2:{ intros E. injection E as -> _. done. }
  unfold unsignedDecimal. rewrite (spanDigits_digits _ Hf).
  cbn [exponentPart length Nat.eqb negb]. rewrite app_nil_r.
  unfold decimalNumber. cbn [length Z.of_nat].
  destruct (Z.eqb_spec (decimal_value 0 (c :: f)) 0) as [->|Hne]; [done|].
  change (0 - Z.of_nat 0) with 0. change (309 <=? 0) with false.
  change (0 <=? 0) with true. cbv iota.
  destruct (Z.leb_spec (Z.of_nat (S (length f)) + 0) (-324)); [lia|].
  change (10 ^ 0) with 1. rewrite Z.mul_1_r.
  apply roundRatio_integer. lia.
Qed.

Lemma minus_one_integer (v : Z) :
  0 <= v <= 2 ^ 53 -> minus_one (Finite v 0) = Finite (v - 1) 0.
Proof.
  intros H. unfold minus_one. cbn [Z.leb Z.compare].
  change (2 ^ 0) with 1. rewrite Z.mul_1_r. apply roundRatio_integer. lia.
Qed.

Lemma truncate_integer (v : Z) : truncate v 0 = v.
Proof. unfold truncate. cbn [Z.leb Z.compare]. change (2 ^ 0) with 1. lia. Qed.

(** The key of a job without a date is [null]. *)
Lemma jobDateKey_falsy (job : obj) :
  truthy (get job "date") = false <-> jobDateKey job = Returns None.
Proof.
  unfold jobDateKey. destruct (truthy (get job "date")); [|done].
  split; [done|]. by destruct (dateKey (get job "date")).
Qed.

(** The key of a job with a non-empty string for a date is the date string
    of the Date built from it, never [null]. *)
Lemma jobDateKey_string (job : obj) (s : jsstring) :
  get job "date" = VStr s -> s <> [] ->
  jobDateKey job = Returns (Some (toDateString (builtDate s))).
Proof.
  intros E Hs. unfold jobDateKey. rewrite E.
  assert (Ht : truthy (VStr s) = true) by (by destruct s).
  by rewrite Ht.
Qed.

(** The Date is the local midnight found from the three fields, turned to
    UTC and clipped; there is none when a field is missing or no finite
    number. *)
Lemma builtDate_midnight (s : jsstring) :
  builtDate s = match jobMidnight s with
              | Some t => TimeClip (UTC t)
              | None => InvalidTime
              end.
Proof. reflexivity. Qed.

(** A date with a field missing, or a field that is no finite number, is
    an invalid Date. *)
Lemma jobMidnight_None (s : jsstring) (i : nat) :
  (i < 3)%nat -> isFinite (ToNumber (split s slash !! i)) = false ->
  jobMidnight s = None.
Proof.
  intros Hi H. unfold jobMidnight, localMidnight. cbv zeta.
  destruct i as [|[|[|i]]]; [| | |lia].
  - destruct (ToNumber (split s slash !! 0%nat)); try done;
      by destruct (ToNumber (split s slash !! 2%nat)).
  - destruct (ToNumber (split s slash !! 1%nat)); try done;
      destruct (ToNumber (split s slash !! 2%nat)); try done;
      by destruct (minus_one _).
  - by destruct (ToNumber (split s slash !! 2%nat)).
Qed.

Lemma ToNumber_missing (parts : list jsstring) (i : nat) :
  (length parts <= i)%nat -> isFinite (ToNumber (parts !! i)) = false.
Proof. intros H. by rewrite (lookup_ge_None_2 parts i H). Qed.

(** The key of a non-empty date of fewer than three fields is the string
    "Invalid Date": the year is [undefined]. *)
Lemma jobDateKey_short (job : obj) (s : jsstring) :
  get job "date" = VStr s -> s <> [] -> (length (split s slash) < 3)%nat ->
  jobDateKey job = Returns (Some (str "Invalid Date")).
Proof.
  intros E Hs Hlen. rewrite (jobDateKey_string job s E Hs), builtDate_midnight.
  rewrite (jobMidnight_None s 2); [done|lia|].
  apply ToNumber_missing. lia.
Qed.

(** The key of a job that has one is the key of its date. *)
Lemma jobDateKey_Some (job : obj) (k : jsstring) :
  jobDateKey job = Returns (Some k) <->
  truthy (get job "date") = true /\ dateKey (get job "date") = Returns k.
Proof.
  unfold jobDateKey. destruct (truthy (get job "date")).
  - destruct (dateKey (get job "date")) as [k'|]; simpl;
      split; try done; try (by intros [_ ?]).
    + intros H. by inversion H.
    + intros [_ H]. by inversion H.
  - split; [done | by intros [? _]].
Qed.

(** A job is keyed unless its date is truthy and no string: such a date
    has no [split]. *)
Lemma keyable_returns (job : obj) :
  keyable job = true <-> exists k, jobDateKey job = Returns k.
Proof.
  unfold keyable, jobDateKey.
  destruct (get job "date") as [| |b|z|s]; cbn [truthy dateKey].
  - split; eauto.
  - split; eauto.
  - destruct b; simpl; split; eauto; try done. by intros [? ?].
  - destruct (negb (z =? 0)); simpl; split; eauto; try done. by intros [? ?].
  - split; [|done]. intros _. destruct s; simpl; eauto.
Qed.

Lemma keyable_throws (job : obj) :
  keyable job = false <-> jobDateKey job = Throws.
Proof.
  pose proof (keyable_returns job) as H.
  destruct (keyable job), (jobDateKey job) as [k|]; split; try done.
  - destruct H as [[k Hk] _]; done.
  - intros _. destruct H as [_ H]. discriminate H. eauto.
Qed.

(** ** The jobs of the selected day *)

Lemma filterOutcome_pure {A} (f : A -> outcome bool) (g : A -> bool) (l : list A) :
  Forall (fun x => f x = Returns (g x)) l ->
  filterOutcome f l = Returns (List.filter g l).
Proof.
  induction 1 as [|x l Hx _ IH]; simpl; [done|].
  rewrite Hx. simpl. rewrite IH. simpl. by destruct (g x).
Qed.




(** The callback selects a job exactly when the job's day key is the date
    string of the selected date. *)
Lemma onSelectedDate_key (date : Z) (job : obj) (k : option jsstring) :
  jobDateKey job = Returns k ->
  onSelectedDate date job =
    Returns (bool_decide (k = Some (DateString (LocalTime date)))).
Proof.
  unfold jobDateKey, onSelectedDate.
  destruct (truthy (get job "date")).
  - destruct (dateKey (get job "date")) as [k'|]; simpl; try done.
    intros [= <-]. f_equal. apply bool_decide_ext. split; congruence.
  - by intros [= <-].
Qed.







(** ** The job dates *)

Lemma mapOutcome_Returns {A B} (f : A -> outcome B) (l : list A) (ys : list B) :
  mapOutcome f l = Returns ys <-> Forall2 (fun x y => f x = Returns y) l ys.
Proof.
  revert ys. induction l as [|x l IH]; intros ys; simpl.
  - split; [intros [= <-]; constructor | by inversion 1].
  - destruct (f x) as [y|] eqn:Ex; simpl.
    + destruct (mapOutcome f l) as [ys'|] eqn:El; simpl.
      * split.
        -- intros [= <-]. constructor; [done | by apply IH].
        -- inversion 1 as [|???? Hy Hys]; subst.
           apply IH in Hys. congruence.
      * split; [done|]. inversion 1 as [|???? Hy Hys]; subst.
        by apply IH in Hys.
    + split; [done | inversion 1; congruence].
Qed.

Lemma mapOutcome_Throws {A B} (f : A -> outcome B) (l : list A) :
  Exists (fun x => f x = Throws) l -> mapOutcome f l = Throws.
Proof.
  induction 1 as [x l Hx|x l _ IH]; simpl.
  - by rewrite Hx.
  - rewrite IH. by destruct (f x).
Qed.

Lemma filterBoolean_elem (keys : list (option jsstring)) (k : jsstring) :
  k ∈ filterBoolean keys <-> k <> [] /\ Some k ∈ keys.
Proof.
  unfold filterBoolean. rewrite list_elem_of_omap. split.
  - intros ([[|c s]|] & Hin & Heq); try done. by inversion Heq; subst.
  - intros [Hk Hin]. exists (Some k). split; [done|]. by destruct k.
Qed.

(** The job dates are the day keys of the jobs that have one. *)
Lemma jobDates_elem (jobs : list obj) (dates : list jsstring) (k : jsstring) :
  jobDates jobs = Returns dates ->
  (k ∈ dates <->
   k <> [] /\ exists job, job ∈ jobs /\ jobDateKey job = Returns (Some k)).
Proof.
  unfold jobDates.
  destruct (mapOutcome jobDateKey jobs) as [keys|] eqn:E; simpl; try done.
  intros [= <-]. apply mapOutcome_Returns in E.
  rewrite filterBoolean_elem. split; intros [Hk H]; (split; [done|]).
  - apply list_elem_of_lookup in H as [i Hi].
    destruct (Forall2_lookup_r _ _ _ _ _ E Hi) as (job & Hjob & Hkey).
    exists job. split; [|done]. apply list_elem_of_lookup. eauto.
  - destruct H as (job & Hin & Hkey).
    apply list_elem_of_lookup in Hin as [i Hi].
    destruct (Forall2_lookup_l _ _ _ _ _ E Hi) as (key & Hk' & Hkey').
    apply list_elem_of_lookup. exists i. congruence.
Qed.

Lemma jobDates_returns (jobs : list obj) :
  Forall (fun job => exists k, jobDateKey job = Returns k) jobs ->
  exists dates, jobDates jobs = Returns dates.
Proof.
  intros H. unfold jobDates.
  cut (exists keys, mapOutcome jobDateKey jobs = Returns keys).
  { intros [keys ->]. simpl. eauto. }
  induction H as [|job jobs [k Hk] _ [keys IH]]; simpl; [eauto|].
  rewrite Hk. simpl. rewrite IH. simpl. eauto.
Qed.


Lemma jobDates_Throws (jobs : list obj) :
  Exists (fun job => keyable job = false) jobs -> jobDates jobs = Throws.
Proof.
  intros H. unfold jobDates. rewrite mapOutcome_Throws; [done|].
  eapply Exists_impl; [exact H|]. intros job Hj. by apply keyable_throws.
Qed.

Lemma arrayIncludes_true (l : list jsstring) (s : jsstring) :
  arrayIncludes l s = true <-> s ∈ l.
Proof. unfold arrayIncludes. apply bool_decide_eq_true. Qed.

Lemma arrayIncludes_false (l : list jsstring) (s : jsstring) :
  arrayIncludes l s = false <-> s ∉ l.
Proof. unfold arrayIncludes. apply bool_decide_eq_false. Qed.


(** The local midnight of a date of three or more fields of digits is
    found from the numbers as they are: nothing checks the month or the day
    against the calendar. *)
Lemma jobMidnight_fields (s m d y : jsstring) (rest : list jsstring) :
  split s slash = m :: d :: y :: rest ->
  determinedField m = true -> determinedField d = true ->
  determinedField y = true ->
  jobMidnight s =
    Some (MakeDate
            (MakeDay (MakeFullYear (decimal_value 0 y)) (decimal_value 0 m - 1)
                     (decimal_value 0 d)) 0).
Proof.
  intros Es Hm Hd Hy. unfold jobMidnight. cbv zeta. rewrite Es. simpl ToNumber.
  rewrite !StringToNumber_determined by done.
  rewrite minus_one_integer.
  2:{ unfold determinedField in Hm. apply andb_true_iff in Hm as [Hm1 Hm2].
      apply Z.leb_le in Hm2. pose proof (decimal_value_nonneg m 0 Hm1). lia. }
  unfold localMidnight. by rewrite !truncate_integer.
Qed.

(** The key of such a date is the date string of the Date built from the
    numbers. *)
Lemma jobDateKey_fields (job : obj) (s m d y : jsstring) (rest : list jsstring) :
  get job "date" = VStr s ->
  split s slash = m :: d :: y :: rest ->
  determinedField m = true -> determinedField d = true ->
  determinedField y = true ->
  jobDateKey job =
    Returns (Some (toDateString
      (TimeClip (UTC (MakeDate
         (MakeDay (MakeFullYear (decimal_value 0 y)) (decimal_value 0 m - 1)
                  (decimal_value 0 d)) 0))))).
Proof.
  intros E Es Hm Hd Hy.
  assert (Hs : s <> []) by (intros ->; discriminate Es).
  rewrite (jobDateKey_string job s E Hs), builtDate_midnight.
  by rewrite (jobMidnight_fields s m d y rest Es Hm Hd Hy).
Qed.





(** ** Tile classes *)

(** C3. In the month view, where the tiles are days, the class of a tile
    is "today" when its date string is today's, whatever the blackout and
    job dates; otherwise "blackout" when it is among the blackout dates;
    otherwise "highlight" when it is among the job dates; otherwise none. *)
Theorem tileClassName_precedence (J B : list jsstring) (now date : Z) :
  let d := DateString (LocalTime date) in
  let t := DateString (LocalTime now) in
  let class := tileClassName J B now date "month" in
  (d = t -> class = Some "today"%string) /\
  (d <> t -> d ∈ B -> class = Some "blackout"%string) /\
  (d <> t -> d ∉ B -> d ∈ J -> class = Some "highlight"%string) /\
  (d <> t -> d ∉ B -> d ∉ J -> class = None).
Proof.
  intros d t class. unfold class, tileClassName. fold d t.
  rewrite (bool_decide_eq_true_2 ("month"%string = "month"%string)) by done.
  repeat split.
  - intros E. by rewrite (bool_decide_eq_true_2 _ E).
  - intros E HB. rewrite (bool_decide_eq_false_2 _ E).
    by rewrite (proj2 (arrayIncludes_true B d) HB).
  - intros E HB HJ. rewrite (bool_decide_eq_false_2 _ E).
    rewrite (proj2 (arrayIncludes_false B d) HB).
    by rewrite (proj2 (arrayIncludes_true J d) HJ).
  - intros E HB HJ. rewrite (bool_decide_eq_false_2 _ E).
    rewrite (proj2 (arrayIncludes_false B d) HB).
    by rewrite (proj2 (arrayIncludes_false J d) HJ).
Qed.

(** Today, with a job on it and blacked out as well, is still "today". *)
Lemma tileClassName_precedence_witness :
  let today := 1704412800000 in
  let key := DateString (LocalTime today) in
  tileClassName [key] [key] today today "month" = Some "today"%string.
Proof.
  intros today key.
  apply (proj1 (tileClassName_precedence [key] [key] today today)).
  reflexivity.
Defined.

(** In the other views the tiles are months, years and decades, and none
    gets a class. *)
Lemma tileClassName_other_view (J B : list jsstring) (now date : Z) (view : string) :
  view <> "month"%string -> tileClassName J B now date view = None.
Proof.
  intros H. unfold tileClassName. by rewrite (bool_decide_eq_false_2 _ H).
Qed.

(** ** Blackout days *)

(** C4. A toggle (a click with Ctrl held) on a day that is among the job
    dates is refused with the "Cannot blackout" message and leaves the
    blackout dates as they were; no click at all changes them on such a
    day. *)
Theorem handleBlackoutToggle_rejected (J B : list jsstring) (clickedDate : Z) :
  DateString (LocalTime clickedDate) ∈ J ->
  handleBlackoutToggle J B clickedDate true =
    (B, CannotBlackout (DateString (LocalTime clickedDate))) /\
  forall ctrlKey, fst (handleBlackoutToggle J B clickedDate ctrlKey) = B.
Proof.
  intros H. apply arrayIncludes_true in H.
  unfold handleBlackoutToggle. rewrite H. split; [done|]. by intros [].
Qed.

Lemma handleBlackoutToggle_rejected_witness :
  let day := 1704412800000 in
  let key := DateString (LocalTime day) in
  handleBlackoutToggle [key] [] day true = ([], CannotBlackout key) /\
  forall ctrlKey, fst (handleBlackoutToggle [key] [] day ctrlKey) = [].
Proof.
  intros day key. apply (handleBlackoutToggle_rejected [key] [] day).
  apply list_elem_of_In. left. reflexivity.
Defined.

(** A click without Ctrl is no toggle. *)
Lemma handleBlackoutToggle_plain_click (J B : list jsstring) (clickedDate : Z) :
  handleBlackoutToggle J B clickedDate false = (B, NotCtrlClick).
Proof. reflexivity. Qed.

(** One toggle on a day without jobs flips the membership of the day. *)
Lemma handleBlackoutToggle_flips (J B : list jsstring) (clickedDate : Z) :
  let d := DateString (LocalTime clickedDate) in
  let B' := fst (handleBlackoutToggle J B clickedDate true) in
  d ∉ J ->
  (d ∈ B' <-> d ∉ B) /\ (forall x, x <> d -> x ∈ B' <-> x ∈ B).
Proof.
  intros d B' HJ. apply arrayIncludes_false in HJ.
  unfold B', handleBlackoutToggle. fold d. rewrite HJ. cbn [negb].
  destruct (arrayIncludes B d) eqn:HB; cbn [fst].
  - apply arrayIncludes_true in HB. split.
    + rewrite list_elem_of_In, filter_In, negb_true_iff, bool_decide_eq_false.
      tauto.
    + intros x Hx.
      rewrite !list_elem_of_In, filter_In, negb_true_iff, bool_decide_eq_false.
      tauto.
  - apply arrayIncludes_false in HB. split.
    + rewrite elem_of_app, list_elem_of_singleton. tauto.
    + intros x Hx. rewrite elem_of_app, list_elem_of_singleton. tauto.
Qed.

Lemma NoDup_filter_bool {A} (g : A -> bool) (l : list A) :
  NoDup l -> NoDup (List.filter g l).
Proof.
  induction 1 as [|x l Hx Hl IH]; simpl; [constructor|].
  destruct (g x); [|done]. constructor; [|done].
  rewrite list_elem_of_In, filter_In, <- list_elem_of_In. tauto.
Qed.

Lemma elem_of_end {A} (l : list A) (d : A) : d ∈ l ++ [d].
Proof. apply elem_of_app. right. by apply list_elem_of_singleton. Qed.

Lemma filter_others {A} `{EqDecision A} (d : A) (l : list A) :
  d ∉ l -> List.filter (fun x => negb (bool_decide (x = d))) l = l.
Proof.
  induction l as [|x l IH]; simpl; [done|].
  rewrite not_elem_of_cons. intros [Hx Hl].
  rewrite (bool_decide_eq_false_2 (x = d)) by congruence. simpl. by rewrite IH.
Qed.

(** C5. On a day that is not among the job dates, two toggles in a row
    give back the blackout set: the same days are blacked out as before.
    When the day was not blacked out, the array itself is as before; when
    it was, the day has moved to the end of the array. *)
Theorem handleBlackoutToggle_twice (J B : list jsstring) (clickedDate : Z) :
  DateString (LocalTime clickedDate) ∉ J ->
  let d := DateString (LocalTime clickedDate) in
  let B1 := fst (handleBlackoutToggle J B clickedDate true) in
  let B2 := fst (handleBlackoutToggle J B1 clickedDate true) in
  (forall x, x ∈ B2 <-> x ∈ B) /\
  (d ∉ B -> B2 = B) /\
  (NoDup B -> B2 ≡ₚ B).
Proof.
  intros HJ d B1 B2.
  assert (Hmem : forall x, x ∈ B2 <-> x ∈ B).
  { intros x.
    destruct (handleBlackoutToggle_flips J B clickedDate HJ) as [H1 H1'].
    destruct (handleBlackoutToggle_flips J B1 clickedDate HJ) as [H2 H2'].
    fold d B1 in H1, H1', H2, H2'. fold B2 in H2, H2'.
    destruct (decide (x = d)) as [->|Hne].
    - rewrite H2, H1. destruct (decide (d ∈ B)); tauto.
    - by rewrite (H2' x Hne), (H1' x Hne). }
  split; [exact Hmem|]. split.
  - intros HB. unfold B2, B1, handleBlackoutToggle. fold d.
    rewrite (proj2 (arrayIncludes_false J d) HJ). cbn [negb].
    rewrite (proj2 (arrayIncludes_false B d) HB). cbn [fst].
    rewrite (proj2 (arrayIncludes_true (B ++ [d]) d) (elem_of_end B d)).
    cbn [fst]. rewrite List.filter_app, (filter_others d B HB). simpl.
    rewrite (bool_decide_eq_true_2 (d = d)) by done. simpl. apply app_nil_r.
  - intros Hnd. apply NoDup_Permutation; [|done|exact Hmem].
    unfold B2, B1, handleBlackoutToggle. fold d.
    rewrite (proj2 (arrayIncludes_false J d) HJ). cbn [negb].
    destruct (arrayIncludes B d) eqn:HB; cbn [fst].
    + set (B' := List.filter _ B).
      assert (Hd : d ∉ B').
      { unfold B'. rewrite list_elem_of_In, filter_In, negb_true_iff,
          bool_decide_eq_false. tauto. }
      rewrite (proj2 (arrayIncludes_false B' d) Hd). cbn [fst].
      apply NoDup_app. split; [unfold B'; by apply NoDup_filter_bool|].
      split; [|apply NoDup_singleton].
      intros x Hx ->%list_elem_of_singleton. done.
    + apply arrayIncludes_false in HB.
      rewrite (proj2 (arrayIncludes_true (B ++ [d]) d) (elem_of_end B d)).
      cbn [fst]. rewrite List.filter_app, (filter_others d B HB). simpl.
      rewrite (bool_decide_eq_true_2 (d = d)) by done. simpl.
      by rewrite app_nil_r.
Qed.

(** A blacked-out day and another one, toggled twice. *)
Lemma handleBlackoutToggle_twice_witness :
  let day := 1704412800000 in
  let d := DateString (LocalTime day) in
  let B := [d; str "Sat Jan 06 2024"] in
  let B1 := fst (handleBlackoutToggle [] B day true) in
  let B2 := fst (handleBlackoutToggle [] B1 day true) in
  (forall x, x ∈ B2 <-> x ∈ B) /\ B2 ≡ₚ B.
Proof.
  intros day d B B1 B2.
  destruct (handleBlackoutToggle_twice [] B day) as (H1 & _ & H3).
  - apply not_elem_of_nil.
  - split; [exact H1 | apply H3].
    apply NoDup_cons_2; [|apply NoDup_singleton].
    intros H%list_elem_of_singleton. vm_compute in H. discriminate H.
Defined.

(** The array is not always as before: the toggled day moves to the end. *)
Example handleBlackoutToggle_twice_reorders :
  let day := 1704412800000 in
  let d := DateString (LocalTime day) in
  let B := [d; str "Sat Jan 06 2024"] in
  fst (handleBlackoutToggle [] (fst (handleBlackoutToggle [] B day true)) day true)
  = [str "Sat Jan 06 2024"; d].
Proof. vm_compute. reflexivity. Qed.

(** [MakeDay] finds the first day of the month as the language definition
    asks: a time whose year is [ym], whose month is [mn] and whose date
    is 1. *)
Lemma MakeDay_first_of_month (year month : Z) :
  let t := MakeDate (MakeDay year month 1) 0 in
  YearFromTime t = year + month / 12 /\
  MonthFromTime t = month mod 12 /\
  DateFromTime t = 1.
Proof.
  pose proof (Z.mod_pos_bound month 12 ltac:(lia)) as Hmn.
  assert (E : MakeDay year month 1 = MakeDay (year + month / 12) (month mod 12) 1).
  { unfold MakeDay. rewrite (Z.div_small (month mod 12) 12) by lia.
    rewrite Z.mod_mod by lia. by rewrite Z.add_0_r. }
  rewrite E. apply MakeDay_calendar_date; [lia|].
  assert (Hc : month mod 12 = 0 \/ month mod 12 = 1 \/ month mod 12 = 2 \/
               month mod 12 = 3 \/ month mod 12 = 4 \/ month mod 12 = 5 \/
               month mod 12 = 6 \/ month mod 12 = 7 \/ month mod 12 = 8 \/
               month mod 12 = 9 \/ month mod 12 = 10 \/ month mod 12 = 11) by lia.
  destruct (DaysInYear (year + month / 12) =? 366);
    repeat (destruct Hc as [->|Hc]); try rewrite Hc; simpl; lia.
Qed.

(** ** Worked examples *)

Example formatDateForInput_unpadded :
  formatDateForInput (VStr (str "1/5/2024")) = Returns (VStr (str "2024-01-05")).
Proof. reflexivity. Qed.

Example formatDateForInput_two_fields :
  formatDateForInput (VStr (str "1/5")) = Returns (VStr (str "undefined-01-05")).
Proof. reflexivity. Qed.

Example formatDateForStorage_display :
  formatDateForStorage (VStr (str "2024-01-05")) = Returns (VStr (str "01/05/2024")).
Proof. reflexivity. Qed.

(** Three jobs, two of them on the same day: three job dates, two of them
    equal. *)
Example jobDates_three_jobs :
  jobDates [ {[ "date"%string := VStr (str "01/05/2024") ]};
             {[ "date"%string := VStr (str "01/05/2024") ]};
             {[ "date"%string := VStr (str "02/01/2024") ]} ]
  = Returns [str "Fri Jan 05 2024"; str "Fri Jan 05 2024"; str "Thu Feb 01 2024"].
Proof. vm_compute. reflexivity. Qed.

(** A job without a date has no key and leaves no job date. *)
Example jobDates_no_date :
  jobDateKey (∅ : obj) = Returns None /\
  jobDateKey {[ "date"%string := VStr [] ]} = Returns None /\
  jobDates [ (∅ : obj) ] = Returns [].
Proof. vm_compute. repeat split. Qed.

(** A two-digit year counts from 1900, and 29 February of a common year
    is 1 March. *)
Example jobDateKey_two_digit_year :
  jobDateKey {[ "date"%string := VStr (str "1/5/24") ]}
  = Returns (Some (str "Sat Jan 05 1924")).
Proof. vm_compute. reflexivity. Qed.

Example jobDateKey_leap_day :
  jobDateKey {[ "date"%string := VStr (str "02/29/2024") ]}
    = Returns (Some (str "Thu Feb 29 2024")) /\
  jobDateKey {[ "date"%string := VStr (str "02/29/2023") ]}
    = Returns (Some (str "Wed Mar 01 2023")).
Proof. vm_compute. split; reflexivity. Qed.

(** The last day a Date can hold, and the day after it. *)
Example jobDateKey_range_end :
  jobDateKey {[ "date"%string := VStr (str "9/13/275760") ]}
    = Returns (Some (str "Sat Sep 13 275760")) /\
  jobDateKey {[ "date"%string := VStr (str "9/14/275760") ]}
    = Returns (Some (str "Invalid Date")).
Proof. vm_compute. split; reflexivity. Qed.

(** A date that is not a string has no [split]. *)
Example jobDateKey_not_a_string :
  jobDateKey {[ "date"%string := VNum 20240105 ]} = Throws.
Proof. reflexivity. Qed.

(** The fields are converted as the language converts a string to a
    number: white space around it is dropped, an exponent and a
    hexadecimal literal are read, a fraction is cut off and an empty field
    is zero; a field of letters is no number, and neither is a minus sign
    before a hexadecimal literal. *)
Example jobDateKey_number_forms :
  jobDateKey {[ "date"%string := VStr (str "1e0/5/2024") ]}
    = Returns (Some (str "Fri Jan 05 2024")) /\
  jobDateKey {[ "date"%string := VStr (str " 1 /0x5/2024.9") ]}
    = Returns (Some (str "Fri Jan 05 2024")) /\
  jobDateKey {[ "date"%string := VStr (str "1.5/5.99/2024") ]}
    = Returns (Some (str "Fri Jan 05 2024")) /\
  jobDateKey {[ "date"%string := VStr (str "//2024") ]}
    = Returns (Some (str "Thu Nov 30 2023")) /\
  jobDateKey {[ "date"%string := VStr (str "-1/-5/2024") ]}
    = Returns (Some (str "Thu Oct 26 2023")) /\
  jobDateKey {[ "date"%string := VStr (str "Jan/5/2024") ]}
    = Returns (Some (str "Invalid Date")) /\
  jobDateKey {[ "date"%string := VStr (str "1/-0x5/2024") ]}
    = Returns (Some (str "Invalid Date")) /\
  jobDateKey {[ "date"%string := VStr (str "1/5/Infinity") ]}
    = Returns (Some (str "Invalid Date")).
Proof. vm_compute. repeat split. Qed.

(** * Further properties of the code *)

(** ** The date codec on arbitrary fields *)

Lemma split_join (sep : N) (parts : list jsstring) :
  parts <> [] -> Forall (fun p => includes p sep = false) parts ->
  split (join sep parts) sep = parts.
Proof.
  intros Hne H. induction H as [|p ps Hp Hps IH]; [done|].
  destruct ps as [|q ps].
  - simpl. by apply split_without_sep.
  - change (join sep (p :: q :: ps)) with (p ++ sep :: join sep (q :: ps)).
    rewrite split_app_sep by done. f_equal. by apply IH.
Qed.

Lemma includes_join_true (sep : N) (p q : jsstring) (ps : list jsstring) :
  includes (join sep (p :: q :: ps)) sep = true.
Proof.
  change (join sep (p :: q :: ps)) with (p ++ sep :: join sep (q :: ps)).
  by rewrite includes_app, includes_cons, N.eqb_refl, orb_true_r.
Qed.

Lemma all_digits_padStart (s : jsstring) (n : nat) :
  all_digits s = true -> all_digits (padStart s n zero_digit) = true.
Proof.
  intros H. unfold padStart, all_digits. rewrite forallb_app.
  apply andb_true_iff. split; [|exact H].
  apply forallb_forall. intros x Hx. apply repeat_spec in Hx. by subst.
Qed.

Lemma length_padStart (s : jsstring) (n : nat) (fill : N) :
  length (padStart s n fill) = Nat.max n (length s).
Proof. unfold padStart. rewrite length_app, repeat_length. lia. Qed.

(** X1. Neither function of the codec throws on a string, and each
    gives a string for a string: when the separator is there, the fields
    that are padded exist.  A falsy value of any type ([undefined], [null],
    [false], [0] and the empty string) is given back as it is. *)
Theorem formatDate_on_strings (s : jsstring) :
  (exists r, formatDateForInput (VStr s) = Returns (VStr r)) /\
  (exists r, formatDateForStorage (VStr s) = Returns (VStr r)) /\
  (forall v, truthy v = false ->
     formatDateForInput v = Returns v /\ formatDateForStorage v = Returns v).
Proof.
  split; [|split].
  - unfold formatDateForInput. destruct s as [|c s]; [by eexists|].
    cbn [truthy negb].
    destruct (includes (c :: s) slash) eqn:E; cbn [negb]; [|by eexists].
    destruct (split_with_sep _ _ E) as (a & b & rest & ->). by eexists.
  - unfold formatDateForStorage. destruct s as [|c s]; [by eexists|].
    cbn [truthy negb].
    destruct (includes (c :: s) dash) eqn:E; cbn [negb]; [|by eexists].
    by eexists.
  - intros v Hv. unfold formatDateForInput, formatDateForStorage.
    by rewrite Hv.
Qed.

(** X2. The fields beyond the third are dropped, and a missing third
    field becomes the text "undefined": a date of the fields [m], [d] and
    [rest] is displayed as the first of [rest] (or "undefined"), [m] and
    [d] padded; a display date of the fields [y] and [rest] is stored as
    the first two of [rest] (or "undefined") and [y]. *)
Theorem formatDate_field_count (a b : jsstring) (rest : list jsstring) :
  (Forall (fun p => includes p slash = false) (a :: b :: rest) ->
   formatDateForInput (VStr (join slash (a :: b :: rest))) =
     Returns (VStr (join dash [ToString (rest !! 0%nat);
                               padStart a 2 zero_digit;
                               padStart b 2 zero_digit]))) /\
  (Forall (fun p => includes p dash = false) (a :: b :: rest) ->
   formatDateForStorage (VStr (join dash (a :: b :: rest))) =
     Returns (VStr (join slash [b; ToString (rest !! 0%nat); a]))).
Proof.
  split; intros H.
  - rewrite (formatDateForInput_fields _ a b rest); [done|].
    by apply split_join.
  - unfold formatDateForStorage.
    assert (Ht : truthy (VStr (join dash (a :: b :: rest))) = true).
    { change (join dash (a :: b :: rest)) with (a ++ dash :: join dash (b :: rest)).
      by destruct a. }
    rewrite Ht, includes_join_true. cbn [negb]. cbv zeta.
    rewrite split_join by done. reflexivity.
Qed.

Lemma formatDate_field_count_witness :
  formatDateForInput (VStr (str "1/5")) = Returns (VStr (str "undefined-01-05")) /\
  formatDateForStorage (VStr (str "2024-01-05-x")) = Returns (VStr (str "01/05/2024")).
Proof.
  split.
  - apply (proj1 (formatDate_field_count (str "1") (str "5") [])).
    repeat constructor.
  - apply (proj2 (formatDate_field_count (str "2024") (str "01") [str "05"; str "x"])).
    repeat constructor.
Defined.

(** X3. The other round trip, the one an edit makes: a display date of
    three fields without separators, month and day of two or more code
    units, stored and displayed again, is the display date. *)
Theorem display_roundTrip (y m d : jsstring) :
  Forall (fun p => includes p dash = false /\ includes p slash = false) [y; m; d] ->
  (2 <= length m)%nat -> (2 <= length d)%nat ->
  formatDateForStorage (VStr (join dash [y; m; d])) ≫= formatDateForInput
  = Returns (VStr (join dash [y; m; d])).
Proof.
  intros H Lm Ld.
  apply Forall_cons in H as [[Hy Hy'] H].
  apply Forall_cons in H as [[Hm Hm'] H].
  apply Forall_cons in H as [[Hd Hd'] _].
  change (join dash [y; m; d]) with (y ++ dash :: m ++ dash :: d).
  rewrite formatDateForStorage_fields by done.
  change (formatDateForInput (VStr (join slash [m; d; y]))
          = Returns (VStr (y ++ dash :: m ++ dash :: d))).
  rewrite (formatDateForInput_fields _ m d [y]).
  - by rewrite !padStart_long.
  - apply split_join; [done|]. by repeat constructor.
Qed.

Lemma display_roundTrip_witness :
  formatDateForStorage (VStr (str "2024-01-05")) ≫= formatDateForInput
  = Returns (VStr (str "2024-01-05")).
Proof.
  apply (display_roundTrip (str "2024") (str "01") (str "05")).
  - repeat constructor.
  - simpl. lia.
  - simpl. lia.
Defined.

(** X4. The round trip of a stored date normalises it: the result of the
    round trip of a well-formed date is well-formed and zero-padded, and
    another round trip leaves it as it is. *)
Theorem roundTrip_normal_form (s : jsstring) :
  wellFormedDate s = true ->
  wellFormedDate (padded s) = true /\ zeroPadded (padded s) = true /\
  padded (padded s) = padded s /\
  roundTrip (padded s) = Returns (VStr (padded s)).
Proof.
  unfold wellFormedDate.
  destruct (split s slash) as [|m [|d [|y [|? ?]]]] eqn:E; try done.
  rewrite !andb_true_iff, !Nat.leb_le, Nat.eqb_eq.
  intros [[[[[[[Hm Hd] Hy] Lm1] Lm2] Ld1] Ld2] Ly].
  assert (Hp : padded s = join slash [padStart m 2 zero_digit;
                                      padStart d 2 zero_digit; y]).
  { unfold padded. by rewrite E. }
  assert (Hsplit : split (padded s) slash =
                   [padStart m 2 zero_digit; padStart d 2 zero_digit; y]).
  { rewrite Hp. apply split_join; [done|].
    assert (Hs : is_digit slash = false) by done.
    repeat apply Forall_cons_2; [| | |constructor];
      apply all_digits_without; auto using all_digits_padStart. }
  assert (Hlm : length (padStart m 2 zero_digit) = 2%nat)
    by (rewrite length_padStart; lia).
  assert (Hld : length (padStart d 2 zero_digit) = 2%nat)
    by (rewrite length_padStart; lia).
  assert (Hpp : padded (padded s) = padded s).
  { unfold padded at 1.
    rewrite Hsplit, (padStart_long (padStart m 2 zero_digit)),
      (padStart_long (padStart d 2 zero_digit)) by lia.
    by rewrite Hp. }
  repeat split.
  - unfold wellFormedDate. rewrite Hsplit, Hlm, Hld, Ly.
    by rewrite !all_digits_padStart, Hy.
  - unfold zeroPadded. by rewrite Hsplit, Hlm, Hld.
  - exact Hpp.
  - unfold roundTrip.
    rewrite (formatDateForInput_fields _ _ _ [y] Hsplit).
    change (formatDateForStorage
      (VStr (y ++ dash :: padStart (padStart m 2 zero_digit) 2 zero_digit
               ++ dash :: padStart (padStart d 2 zero_digit) 2 zero_digit))
      = Returns (VStr (padded s))).
    rewrite (padStart_long (padStart m 2 zero_digit)),
      (padStart_long (padStart d 2 zero_digit)) by lia.
    rewrite formatDateForStorage_fields.
    + by rewrite Hp.
    + by apply all_digits_without.
    + apply all_digits_without; auto using all_digits_padStart.
    + apply all_digits_without; auto using all_digits_padStart.
Qed.

Lemma roundTrip_normal_form_witness :
  wellFormedDate (padded (str "1/5/2024")) = true /\
  zeroPadded (padded (str "1/5/2024")) = true /\
  padded (padded (str "1/5/2024")) = padded (str "1/5/2024") /\
  roundTrip (padded (str "1/5/2024")) = Returns (VStr (padded (str "1/5/2024"))).
Proof. apply (roundTrip_normal_form (str "1/5/2024")). reflexivity. Defined.

(** ** The search is a prefix match *)

(** A name lies in the closed range of the search exactly when it starts
    with the input and what follows is at most the one code unit U+F8FF. *)
Lemma range_iff_prefix (p name : jsstring) :
  str_le p name = true /\ str_le name (p ++ [sentinel]) = true <->
  exists rest, name = p ++ rest /\ str_le rest [sentinel] = true.
Proof.
  revert name. induction p as [|x p IH]; intros name.
  - simpl. split.
    + intros [_ H]. by exists name.
    + intros (rest & -> & H). split; [|done]. by destruct rest.
  - destruct name as [|y name].
    + split; [by intros [? _] | by intros (rest & ? & _)].
    + unfold str_le in *. cbn [str_compare app].
      rewrite (N.compare_antisym x y).
      destruct (N.compare_spec x y) as [->| |]; cbn [CompOpp].
      * rewrite IH. split.
        -- intros (rest & -> & H). by exists rest.
        -- intros (rest & [= ->] & H). by exists rest.
      * split; [by intros [_ ?]|]. intros (rest & [= -> ?] & _). lia.
      * split; [by intros [? _]|]. intros (rest & [= -> ?] & _). lia.
Qed.

Lemma str_le_sentinel (rest : jsstring) :
  str_le rest [sentinel] = true <->
  rest = [] \/ exists c tl, rest = c :: tl /\
                 ((c < sentinel)%N \/ (c = sentinel /\ tl = [])).
Proof.
  unfold str_le. destruct rest as [|c tl]; [by split; auto|].
  cbn [str_compare]. destruct (N.compare_spec c sentinel) as [->| |].
  - destruct tl; split; try done.
    + intros _. right. by eexists _, _; eauto.
    + intros [? | (c' & tl' & [= <- <-] & [? | [_ ?]])]; try done; lia.
  - split; [|done]. intros _. right. by eexists _, _; eauto.
  - split; [done|].
    intros [? | (c' & tl' & [= <- <-] & [? | [? _]])]; try done; lia.
Qed.

(** X5. The search is a prefix match.  Every job it returns is a stored
    job, with its id, whose name starts with the input; and every stored
    job whose name is the input alone, or the input followed by a code unit
    below the surrogates (U+D800, up to where the order of code units is
    the order of code points) and anything after it, is returned. *)
Theorem handleSearch_prefix (jobs : list document) (input : jsstring) :
  input <> [] ->
  (forall job, job ∈ snd (handleSearch jobs input) ->
     exists d rest, d ∈ jobs /\ job = withId d /\
       doc_data d !! "name"%string = Some (VStr (input ++ rest))) /\
  (forall d rest, d ∈ jobs ->
     doc_data d !! "name"%string = Some (VStr (input ++ rest)) ->
     (rest = [] \/ exists c tl, rest = c :: tl /\ (c < 55296)%N) ->
     withId d ∈ snd (handleSearch jobs input)).
Proof.
  intros Hne.
  assert (Hres : snd (handleSearch jobs input) =
                 List.map withId (getDocs jobs (searchQuery input))).
  { unfold handleSearch. by destruct input. }
  rewrite Hres. split.
  - intros job Hin. apply list_elem_of_In, in_map_iff in Hin as (d & <- & Hd).
    unfold getDocs in Hd. apply filter_In in Hd as [Hd Hsat].
    apply searchQuery_satisfied in Hsat as (name & Hname & Hrange).
    apply range_iff_prefix in Hrange as (rest & -> & _).
    exists d, rest. by rewrite list_elem_of_In.
  - intros d rest Hd Hname Hrest.
    apply list_elem_of_In, in_map, filter_In. split; [by apply list_elem_of_In|].
    apply searchQuery_satisfied. exists (input ++ rest). split; [done|].
    apply range_iff_prefix. exists rest. split; [done|].
    apply str_le_sentinel. destruct Hrest as [-> | (c & tl & -> & Hc)]; [by left|].
    right. eexists _, _. split; [done|]. left. unfold sentinel. lia.
Qed.

Lemma handleSearch_prefix_witness :
  let ann := Doc (str "j1") {[ "name"%string := VStr (str "Ann") ]} in
  let bob := Doc (str "j2") {[ "name"%string := VStr (str "Bob") ]} in
  (forall job, job ∈ snd (handleSearch [ann; bob] (str "An")) ->
     exists d rest, d ∈ [ann; bob] /\ job = withId d /\
       doc_data d !! "name"%string = Some (VStr (str "An" ++ rest))) /\
  withId ann ∈ snd (handleSearch [ann; bob] (str "An")).
Proof.
  intros ann bob.
  destruct (handleSearch_prefix [ann; bob] (str "An")) as [H1 H2]; [discriminate|].
  split; [exact H1|].
  apply (H2 ann (str "n")).
  - apply list_elem_of_In. left. reflexivity.
  - reflexivity.
  - right. exists 110%N, []. split; [reflexivity | reflexivity].
Defined.

(** ** The records of the import *)

Lemma importRow_record (uuid : jsstring) (row : obj) :
  match importRow uuid row with
  | Some (docId, r) =>
      docId = js_or (get row "id") (VStr uuid) /\
      r !! "id"%string = Some docId /\
      (exists date, formatDateForStorage (get row "date") = Returns date /\
                    r !! "date"%string = Some date) /\
      forall k, k <> "id"%string -> k <> "completed"%string ->
                k <> "date"%string -> r !! k = row !! k
  | None => True
  end.
Proof.
  unfold importRow.
  destruct (formatDateForStorage (get row "date")) as [date|] eqn:E; try done.
  destruct (docPath _); [|done].
  repeat split.
  - by rewrite lookup_insert_eq.
  - exists date. split; [done|].
    rewrite lookup_insert_ne by done. rewrite lookup_insert_ne by done.
    by rewrite lookup_insert_eq.
  - intros k H1 H2 H3. by rewrite !lookup_insert_ne.
Qed.

(** X6. Every record that the import passes to [setDoc] carries in its
    [id] field the id that was given to [doc]; [doc] has accepted that id,
    and when the id is plain (not empty, without a slash) the document
    written is the one of that id in the collection; the id is the row's
    own when the row has one; the date is the storage form of the row's
    date; and every other column but [completed] is copied as it is. *)
Theorem handleFileUpload_records (uuidv4 : nat -> jsstring) (n : nat)
    (rows : list obj) :
  Forall2
    (fun row w =>
       snd w !! "id"%string = Some (fst w) /\
       (exists path, docPath (fst w) = Some path /\
          forall s, fst w = VStr s -> plainId s = true ->
                    path = [str "jobs"; s]) /\
       (truthy (get row "id") = true -> fst w = get row "id") /\
       (exists date, formatDateForStorage (get row "date") = Returns date /\
                     snd w !! "date"%string = Some date) /\
       forall k, k <> "id"%string -> k <> "completed"%string ->
                 k <> "date"%string -> snd w !! k = row !! k)
    (rowsWritten uuidv4 n rows) (handleFileUpload uuidv4 n rows).
Proof.
  revert n. induction rows as [|row rows IH]; intros n; simpl; [constructor|].
  pose proof (importRow_record (uuidv4 n) row) as H.
  pose proof (importRow_completed (uuidv4 n) row) as Hs.
  destruct (importRow (uuidv4 n) row) as [[docId r]|]; [|apply IH].
  destruct Hs as (_ & _ & [path Hp] & _). destruct H as (Hid & Hr & Hdate & Hk).
  constructor; [|apply IH]. simpl. repeat split; try done.
  - exists path. split; [done|]. intros s -> Hs.
    rewrite (docPath_plain s Hs) in Hp. congruence.
  - intros Ht. rewrite Hid. unfold js_or. by rewrite Ht.
Qed.

(** An id with slashes names the document at that path under the
    collection, whose own id is the last segment and not the [id] field of
    the record; an id that makes a path of odd length names no document,
    and the row is not written. *)
Example importRow_id_with_slashes :
  let row : obj := {[ "id"%string := VStr (str "a/b/c") ]} in
  let short : obj := {[ "id"%string := VStr (str "a/b") ]} in
  docPath (get row "id") = Some [str "jobs"; str "a"; str "b"; str "c"] /\
  (fst <$> handleFileUpload (fun _ => str "u") 0 [row; short])
    = [VStr (str "a/b/c")] /\
  rowsWritten (fun _ => str "u") 0 [row; short] = [row].
Proof. vm_compute. repeat split. Qed.




(** X8. An import of two lists of rows one after the other writes what
    the import of the first list writes, then what the import of the second
    writes when the generator is taken up where the first import left it:
    no row changes the record of another. *)
Theorem handleFileUpload_app (uuidv4 : nat -> jsstring) (n : nat)
    (before after : list obj) :
  handleFileUpload uuidv4 n (before ++ after) =
    handleFileUpload uuidv4 n before ++
    handleFileUpload uuidv4 (n + idsTaken before) after.
Proof.
  revert n. induction before as [|r l1 IH]; intros k.
  - simpl. by rewrite Nat.add_0_r.
  - cbn [app handleFileUpload]. unfold idsTaken. cbn [List.filter].
    destruct (truthy (get r "id")); cbn [negb length];
      rewrite IH; fold (idsTaken l1);
      destruct (importRow (uuidv4 k) r); try done;
      by rewrite ?Nat.add_succ_r.
Qed.

(** ** Adding a job, and reading back what was written *)

(** X9. A job added by hand is written under the generated id, with
    that id in the record and [completed] set to [false], whatever the form
    data hold for the two; the date is the storage form of the submitted
    date and every other field is written as submitted.  The record is
    written whenever the submitted date is a string or missing. *)
Theorem handleAddJob_record (uuid : jsstring) (data : obj) :
  (forall docId newJob, handleAddJob uuid data = Some (docId, newJob) ->
     docId = VStr uuid /\
     newJob !! "id"%string = Some (VStr uuid) /\
     newJob !! "completed"%string = Some (VBool false) /\
     (exists date, formatDateForStorage (get data "date") = Returns date /\
                   newJob !! "date"%string = Some date) /\
     forall k, k <> "id"%string -> k <> "completed"%string ->
               k <> "date"%string -> newJob !! k = data !! k) /\
  (storable data = true -> exists newJob,
     handleAddJob uuid data = Some (VStr uuid, newJob)).
Proof.
  unfold handleAddJob. split.
  - intros docId newJob.
    destruct (formatDateForStorage (get data "date")) as [date|]; try done.
    intros [= <- <-]. repeat split.
    + by rewrite lookup_insert_eq.
    + rewrite lookup_insert_ne by done. by rewrite lookup_insert_eq.
    + exists date. split; [done|].
      rewrite lookup_insert_ne by done. rewrite lookup_insert_ne by done.
      by rewrite lookup_insert_eq.
    + intros k H1 H2 H3. by rewrite !lookup_insert_ne.
  - intros [r ->]%storable_returns. eauto.
Qed.

Lemma handleAddJob_record_witness :
  let data : obj := {[ "name"%string := VStr (str "Ann");
                       "date"%string := VStr (str "2024-01-05");
                       "completed"%string := VBool true;
                       "id"%string := VStr (str "mine") ]} in
  exists newJob, handleAddJob (str "u1") data = Some (VStr (str "u1"), newJob) /\
    newJob !! "id"%string = Some (VStr (str "u1")) /\
    newJob !! "completed"%string = Some (VBool false).
Proof.
  intros data.
  destruct (handleAddJob_record (str "u1") data) as [H1 H2].
  destruct H2 as [newJob E]; [reflexivity|].
  exists newJob. split; [exact E|].
  destruct (H1 _ _ E) as (_ & Hid & Hc & _). by split.
Defined.




(** ** Opening a job and saving it *)

Lemma get_lookup (o : obj) (k : string) (v : value) :
  o !! k = Some v -> get o k = v.
Proof. unfold get. by intros ->. Qed.



(** ** Marking a job as completed *)

Lemma get_markCompleted (job : obj) (k : string) :
  k <> "completed"%string -> get (markCompleted job) k = get job k.
Proof.
  intros H. unfold get, markCompleted. by rewrite lookup_insert_ne.
Qed.

(** X12. When the update succeeds, every job whose id is the given one
    has [completed] set to [true], and only that field changes; every
    other job stays as it is; the list keeps its length and order; and
    marking the same job again changes nothing more. *)
Theorem markJobAsCompleted_jobs (jobId : value) (jobs : list obj)
    (selectedJob : option obj) :
  let jobs' := fst (markJobAsCompleted true jobId jobs selectedJob) in
  let selected' := snd (markJobAsCompleted true jobId jobs selectedJob) in
  Forall2
    (fun job job' =>
       (get job "id" = jobId -> job' !! "completed"%string = Some (VBool true)) /\
       (get job "id" <> jobId -> job' = job) /\
       (forall k, k <> "completed"%string -> job' !! k = job !! k))
    jobs jobs' /\
  markJobAsCompleted true jobId jobs' selected' = (jobs', selected').
Proof.
  simpl. split.
  - induction jobs as [|job jobs IH]; simpl; constructor; [|exact IH].
    unfold strict_eq. destruct (decide (get job "id" = jobId)) as [Heq|Hne].
    + rewrite (bool_decide_eq_true_2 _ Heq). repeat split.
      * intros _. apply lookup_insert_eq.
      * done.
      * intros k Hk. unfold markCompleted. by rewrite lookup_insert_ne.
    + rewrite (bool_decide_eq_false_2 _ Hne). by repeat split.
  - f_equal.
    + rewrite List.map_map. apply map_ext. intros job.
      unfold strict_eq. destruct (decide (get job "id" = jobId)) as [Heq|Hne].
      * rewrite (bool_decide_eq_true_2 _ Heq).
        rewrite get_markCompleted, (bool_decide_eq_true_2 _ Heq) by done.
        unfold markCompleted. by rewrite insert_insert_eq.
      * rewrite (bool_decide_eq_false_2 _ Hne).
        by rewrite (bool_decide_eq_false_2 _ Hne).
    + simpl. unfold markCompleted. by rewrite insert_insert_eq.
Qed.

Lemma jobDateKey_markCompleted (job : obj) :
  jobDateKey (markCompleted job) = jobDateKey job.
Proof. unfold jobDateKey. by rewrite get_markCompleted. Qed.

Lemma onSelectedDate_markCompleted (date : Z) (job : obj) :
  onSelectedDate date (markCompleted job) = onSelectedDate date job.
Proof. unfold onSelectedDate. by rewrite get_markCompleted. Qed.

Lemma mapOutcome_map {A B C} (f : B -> outcome C) (g : A -> B) (l : list A) :
  mapOutcome f (List.map g l) = mapOutcome (fun x => f (g x)) l.
Proof. induction l as [|x l IH]; simpl; [done|]. by rewrite IH. Qed.

Lemma mapOutcome_ext {A B} (f g : A -> outcome B) (l : list A) :
  (forall x, f x = g x) -> mapOutcome f l = mapOutcome g l.
Proof. intros H. induction l as [|x l IH]; simpl; [done|]. by rewrite H, IH. Qed.

Lemma filterOutcome_map {A} (f : A -> outcome bool) (g : A -> A) (l : list A) :
  (forall x, f (g x) = f x) ->
  filterOutcome f (List.map g l) = List.map g <$> filterOutcome f l.
Proof.
  intros H. induction l as [|x l IH]; simpl; [done|].
  rewrite H, IH. destruct (f x) as [b|]; simpl; try done.
  destruct (filterOutcome f l) as [ys|]; simpl; try done.
  by destruct b.
Qed.

(** X13. Marking a job as completed does not touch the calendar: the job
    dates are the same before and after, and the jobs of any selected day
    are the same jobs, the marked ones with [completed] set. *)
Theorem markJobAsCompleted_calendar (updated : bool) (jobId : value)
    (jobs : list obj) (selectedJob : option obj) (date : Z) :
  let jobs' := fst (markJobAsCompleted updated jobId jobs selectedJob) in
  jobDates jobs' = jobDates jobs /\
  jobsForSelectedDate jobs' date =
    (fun res => fst (markJobAsCompleted updated jobId res selectedJob))
      <$> jobsForSelectedDate jobs date.
Proof.
  destruct updated; simpl.
  - split.
    + unfold jobDates. rewrite mapOutcome_map. f_equal.
      apply mapOutcome_ext. intros job.
      destruct (strict_eq (get job "id") jobId); [|done].
      apply jobDateKey_markCompleted.
    + unfold jobsForSelectedDate. apply filterOutcome_map. intros job.
      destruct (strict_eq (get job "id") jobId); [|done].
      apply onSelectedDate_markCompleted.
  - split; [done|]. by destruct (jobsForSelectedDate jobs date).
Qed.

(** ** Highlighted days and listed jobs *)

Lemma jobsForSelectedDate_filter (jobs : list obj) (date : Z) :
  Forall (fun job => exists k, jobDateKey job = Returns k) jobs ->
  jobsForSelectedDate jobs date =
    Returns (List.filter
      (fun job => bool_decide
         (jobDateKey job = Returns (Some (DateString (LocalTime date))))) jobs).
Proof.
  intros Hdet. unfold jobsForSelectedDate. apply filterOutcome_pure.
  eapply Forall_impl; [exact Hdet|]. intros job [k Hk]. simpl.
  rewrite (onSelectedDate_key date job k Hk). f_equal.
  rewrite Hk. apply bool_decide_ext. split; congruence.
Qed.

(** X14. The calendar and the list agree: over jobs that are keyed (none
    has a date that is truthy and no string), [jobDates] and
    [jobsForSelectedDate] both return, and the date string of a day is
    among the job dates exactly when the list of the jobs of that day is
    not empty. *)
Theorem highlight_iff_listed (jobs : list obj) (date : Z) :
  Forall (fun job => exists k, jobDateKey job = Returns k) jobs ->
  exists dates res,
    jobDates jobs = Returns dates /\
    jobsForSelectedDate jobs date = Returns res /\
    (arrayIncludes dates (DateString (LocalTime date)) = true <-> res <> []).
Proof.
  intros Hdet. destruct (jobDates_returns jobs Hdet) as [dates Hdates].
  eexists dates, _. split; [exact Hdates|].
  split; [by apply jobsForSelectedDate_filter|].
  rewrite arrayIncludes_true, (jobDates_elem jobs dates _ Hdates). split.
  - intros (_ & job & Hin & Hk) Hnil.
    assert (Hf : job ∈ List.filter (fun job => bool_decide
              (jobDateKey job = Returns (Some (DateString (LocalTime date))))) jobs).
    { apply list_elem_of_In, filter_In. split; [by apply list_elem_of_In|].
      by apply bool_decide_eq_true. }
    rewrite Hnil in Hf. by apply not_elem_of_nil in Hf.
  - intros Hne. split; [apply DateString_not_empty|].
    destruct (List.filter _ jobs) as [|job res] eqn:E; [done|].
    assert (Hin : In job (List.filter (fun job => bool_decide
              (jobDateKey job = Returns (Some (DateString (LocalTime date))))) jobs))
      by (rewrite E; by left).
    apply filter_In in Hin as [Hin Hk]. apply bool_decide_eq_true in Hk.
    exists job. split; [by apply list_elem_of_In | done].
Qed.

Lemma highlight_iff_listed_witness :
  let jobs : list obj := [ {[ "date"%string := VStr (str "01/05/2024") ]};
                           {[ "date"%string := VStr (str "soon") ]};
                           (∅ : obj) ] in
  exists dates res,
    jobDates jobs = Returns dates /\
    jobsForSelectedDate jobs 1704412800000 = Returns res /\
    (arrayIncludes dates (DateString (LocalTime 1704412800000)) = true <-> res <> []).
Proof.
  intros jobs. apply (highlight_iff_listed jobs 1704412800000).
  repeat constructor; eexists; vm_compute; reflexivity.
Defined.

(** ** Blackout days, kept tidy *)

Lemma toggle_other_days (J B : list jsstring) (clickedDate : Z) (ctrlKey : bool)
    (x : jsstring) :
  x <> DateString (LocalTime clickedDate) ->
  x ∈ fst (handleBlackoutToggle J B clickedDate ctrlKey) <-> x ∈ B.
Proof.
  intros Hx. unfold handleBlackoutToggle.
  destruct ctrlKey; [|done].
  destruct (arrayIncludes J _); cbn [negb fst]; [done|].
  destruct (arrayIncludes B _); cbn [fst].
  - rewrite !list_elem_of_In, filter_In, negb_true_iff, bool_decide_eq_false.
    tauto.
  - rewrite elem_of_app, list_elem_of_singleton. tauto.
Qed.

(** X15. No click spoils the blackout dates: a list without repetition
    stays without repetition, a list that holds no job date never gains
    one, and the blackout state of every day but the clicked one stays as
    it was. *)
Theorem handleBlackoutToggle_keeps (J B : list jsstring) (clickedDate : Z)
    (ctrlKey : bool) :
  let B' := fst (handleBlackoutToggle J B clickedDate ctrlKey) in
  (NoDup B -> NoDup B') /\
  ((forall x, x ∈ B -> x ∉ J) -> forall x, x ∈ B' -> x ∉ J) /\
  (forall x, x <> DateString (LocalTime clickedDate) -> x ∈ B' <-> x ∈ B).
Proof.
  intros B'. split; [|split].
  - intros Hnd. unfold B', handleBlackoutToggle.
    destruct ctrlKey; [|done].
    destruct (arrayIncludes J _); cbn [negb fst]; [done|].
    destruct (arrayIncludes B _) eqn:HB; cbn [fst].
    + by apply NoDup_filter_bool.
    + apply arrayIncludes_false in HB. apply NoDup_app. split; [done|].
      split; [|apply NoDup_singleton].
      intros x Hx ->%list_elem_of_singleton. done.
  - intros Hdisj x Hx.
    destruct (decide (x = DateString (LocalTime clickedDate))) as [->|Hne].
    + unfold B', handleBlackoutToggle in Hx.
      destruct ctrlKey; [|by apply Hdisj].
      destruct (arrayIncludes J _) eqn:HJ; cbn [negb fst] in Hx; [by apply Hdisj|].
      by apply arrayIncludes_false in HJ.
    + apply Hdisj. by apply (toggle_other_days J B clickedDate ctrlKey x Hne).
  - intros x Hx. by apply toggle_other_days.
Qed.

Lemma handleBlackoutToggle_keeps_witness :
  let day := 1704412800000 in
  let B := [str "Sat Jan 06 2024"] in
  let J := [str "Sun Jan 07 2024"] in
  let B' := fst (handleBlackoutToggle J B day true) in
  NoDup B' /\ (forall x, x ∈ B' -> x ∉ J).
Proof.
  intros day B J B'.
  destruct (handleBlackoutToggle_keeps J B day true) as (H1 & H2 & _).
  split.
  - apply H1. apply NoDup_singleton.
  - apply H2. intros x ->%list_elem_of_singleton [=]%list_elem_of_singleton.
Defined.

(** X16. What a toggle shows on the calendar.  After a Ctrl+click on a
    day that has no jobs and is not today, the tile of that day is
    "blackout" when the day was not blacked out before, and has no class
    when it was; the class of every tile of another day is what it was. *)
Theorem toggle_then_tile (J B : list jsstring) (now clickedDate : Z) :
  let d := DateString (LocalTime clickedDate) in
  let B' := fst (handleBlackoutToggle J B clickedDate true) in
  d ∉ J -> d <> DateString (LocalTime now) ->
  (d ∉ B -> tileClassName J B' now clickedDate "month" = Some "blackout"%string) /\
  (d ∈ B -> tileClassName J B' now clickedDate "month" = None) /\
  (forall date view, DateString (LocalTime date) <> d ->
     tileClassName J B' now date view = tileClassName J B now date view).
Proof.
  intros d B' HJ Hnow.
  destruct (handleBlackoutToggle_flips J B clickedDate HJ) as [Hflip _].
  fold d B' in Hflip.
  assert (Htile : tileClassName J B' now clickedDate "month" =
                  if arrayIncludes B' d then Some "blackout"%string else None).
  { unfold tileClassName. fold d.
    rewrite (bool_decide_eq_true_2 ("month"%string = "month"%string)) by done.
    rewrite (bool_decide_eq_false_2 _ Hnow).
    by rewrite (proj2 (arrayIncludes_false J d) HJ). }
  split; [|split].
  - intros HB. rewrite Htile.
    by rewrite (proj2 (arrayIncludes_true B' d) (proj2 Hflip HB)).
  - intros HB. rewrite Htile.
    rewrite (proj2 (arrayIncludes_false B' d)); [done|]. rewrite Hflip. tauto.
  - intros date view Hne. unfold tileClassName.
    assert (Hinc : arrayIncludes B' (DateString (LocalTime date)) =
                   arrayIncludes B (DateString (LocalTime date))).
    { unfold arrayIncludes. apply bool_decide_ext.
      by apply toggle_other_days. }
    by rewrite Hinc.
Qed.

Lemma toggle_then_tile_witness :
  let day := 1704412800000 in
  let B' := fst (handleBlackoutToggle [] [] day true) in
  tileClassName [] B' 0 day "month" = Some "blackout"%string.
Proof.
  intros day B'.
  destruct (toggle_then_tile [] [] 0 day) as (H & _).
  - apply not_elem_of_nil.
  - vm_compute. discriminate.
  - apply H. apply not_elem_of_nil.
Defined.

(** ** Date strings and days *)

Lemma DayWithinYear_bounds (t : Z) :
  0 <= DayWithinYear t < DaysInYear (YearFromTime t).
Proof.
  unfold DayWithinYear. pose proof (YearFromTime_spec t) as H.
  rewrite DayFromYear_succ in H. lia.
Qed.

Lemma DaysInYear_cases (y : Z) : DaysInYear y = 365 \/ DaysInYear y = 366.
Proof. unfold DaysInYear. repeat case_match; auto. Qed.

Lemma MonthFromTime_bounds (t : Z) : 0 <= MonthFromTime t <= 11.
Proof. unfold MonthFromTime. repeat case_match; lia. Qed.

Lemma DateFromTime_bounds (t : Z) : 1 <= DateFromTime t <= 31.
Proof.
  pose proof (DayWithinYear_bounds t) as Hd.
  unfold DateFromTime, MonthFromTime, InLeapYear in *.
  destruct (DaysInYear_cases (YearFromTime t)) as [E|E]; rewrite E in *; simpl;
    repeat (match goal with
            | |- context [?a <? ?b] => destruct (Z.ltb_spec a b)
            end; simpl); lia.
Qed.

Lemma monthName_inj (m m' : Z) :
  0 <= m <= 11 -> 0 <= m' <= 11 -> monthName m = monthName m' -> m = m'.
Proof.
  intros Hm Hm'.
  assert (m = 0 \/ m = 1 \/ m = 2 \/ m = 3 \/ m = 4 \/ m = 5 \/ m = 6 \/
          m = 7 \/ m = 8 \/ m = 9 \/ m = 10 \/ m = 11) as Hc by lia.
  assert (m' = 0 \/ m' = 1 \/ m' = 2 \/ m' = 3 \/ m' = 4 \/ m' = 5 \/ m' = 6 \/
          m' = 7 \/ m' = 8 \/ m' = 9 \/ m' = 10 \/ m' = 11) as Hc' by lia.
  repeat (destruct Hc as [->|Hc]); try subst m;
    repeat (destruct Hc' as [->|Hc']); try subst m';
    first [reflexivity | discriminate].
Qed.

Lemma all_digits_decimal_digits (fuel : nat) (n : Z) (acc : jsstring) :
  all_digits acc = true -> all_digits (decimal_digits fuel n acc) = true.
Proof.
  revert n acc. induction fuel as [|fuel IH]; intros n acc Hacc; [done|].
  cbn [decimal_digits]. cbv zeta.
  assert (Hd : all_digits ((48 + Z.to_N (n mod 10))%N :: acc) = true).
  { unfold all_digits. cbn [forallb]. apply andb_true_iff. split; [|exact Hacc].
    pose proof (Z.mod_pos_bound n 10 ltac:(lia)).
    unfold is_digit. apply andb_true_iff. split; apply N.leb_le; lia. }
  destruct (n <? 10); [exact Hd | by apply IH].
Qed.

Lemma all_digits_ToZeroPadded (n : Z) (k : nat) :
  all_digits (ToZeroPaddedDecimalString n k) = true.
Proof.
  unfold ToZeroPaddedDecimalString, padStart, all_digits. rewrite forallb_app.
  apply andb_true_iff. split.
  - apply forallb_forall. intros x Hx. apply repeat_spec in Hx. by subst.
  - by apply all_digits_decimal_digits.
Qed.

Lemma weekdayName_no_space (d : Z) : includes (weekdayName d) space = false.
Proof. unfold weekdayName. repeat case_match; reflexivity. Qed.

Lemma monthName_no_space (m : Z) : includes (monthName m) space = false.
Proof. unfold monthName. repeat case_match; reflexivity. Qed.

(** The year of a date string, sign and digits, tells the year. *)
Lemma signed_year_inj (y y' : Z) :
  (if 0 <=? y then [] else [dash]) ++ ToZeroPaddedDecimalString (Z.abs y) 4 =
  (if 0 <=? y' then [] else [dash]) ++ ToZeroPaddedDecimalString (Z.abs y') 4 ->
  y = y'.
Proof.
  pose proof (all_digits_ToZeroPadded (Z.abs y) 4) as Hy.
  pose proof (all_digits_ToZeroPadded (Z.abs y') 4) as Hy'.
  pose proof (ToZeroPaddedDecimalString_value (Z.abs y) 4 ltac:(lia)) as Vy.
  pose proof (ToZeroPaddedDecimalString_value (Z.abs y') 4 ltac:(lia)) as Vy'.
  destruct (Z.leb_spec 0 y), (Z.leb_spec 0 y'); simpl; intros E.
  - rewrite E in Vy. lia.
  - rewrite E in Hy. discriminate Hy.
  - rewrite <- E in Hy'. discriminate Hy'.
  - injection E as E. rewrite E in Vy. lia.
Qed.

(** The date string of a time depends on its day only, and tells it. *)
Lemma DateString_same_day (t t' : Z) :
  DateString t = DateString t' <-> Day t = Day t'.
Proof.
  split.
  - unfold DateString. intros E.
    apply (f_equal (fun s => split s space)) in E.
    rewrite !(split_app_sep (weekdayName _)) in E by apply weekdayName_no_space.
    rewrite !(split_app_sep (monthName _)) in E by apply monthName_no_space.
    rewrite !(split_app_sep (ToZeroPaddedDecimalString _ 2)) in E
      by (apply all_digits_without; [done | apply all_digits_ToZeroPadded]).
    injection E as _ Em Ed Ey.
    apply monthName_inj in Em; try apply MonthFromTime_bounds.
    assert (Hd : DateFromTime t = DateFromTime t').
    { pose proof (DateFromTime_bounds t). pose proof (DateFromTime_bounds t').
      rewrite <- (ToZeroPaddedDecimalString_value (DateFromTime t) 2) by lia.
      rewrite <- (ToZeroPaddedDecimalString_value (DateFromTime t') 2) by lia.
      by rewrite Ed. }
    assert (Hy : YearFromTime t = YearFromTime t').
    { apply signed_year_inj.
      assert (Hs : forall l l' : jsstring,
                includes l space = false -> includes l' space = false ->
                split l space = split l' space -> l = l').
      { intros l l' Hl Hl'. rewrite !split_without_sep by done. congruence. }
      apply Hs; [| |exact Ey].
      - rewrite includes_app. apply orb_false_iff. split.
        + destruct (0 <=? YearFromTime t); reflexivity.
        + apply all_digits_without; [done | apply all_digits_ToZeroPadded].
      - rewrite includes_app. apply orb_false_iff. split.
        + destruct (0 <=? YearFromTime t'); reflexivity.
        + apply all_digits_without; [done | apply all_digits_ToZeroPadded]. }
    unfold DateFromTime, InLeapYear in Hd. rewrite Em, Hy in Hd.
    unfold DayWithinYear in Hd. rewrite Hy in Hd. lia.
  - intros E. unfold DateString, WeekDay, DateFromTime, MonthFromTime,
      InLeapYear, DayWithinYear, YearFromTime. by rewrite E.
Qed.

(** X17. A tile is "today" exactly on today's day: in the month view the
    class is "today" if and only if the tile's date and the current time
    fall on the same day; and two times of the same day are the same to the
    calendar, for the tile class and for a click. *)
Theorem tile_of_a_day (J B : list jsstring) (now date date' : Z) (view : string) :
  (tileClassName J B now date "month" = Some "today"%string <->
   Day (LocalTime date) = Day (LocalTime now)) /\
  (Day (LocalTime date) = Day (LocalTime date') ->
   tileClassName J B now date view = tileClassName J B now date' view /\
   forall ctrlKey, handleBlackoutToggle J B date ctrlKey =
                   handleBlackoutToggle J B date' ctrlKey).
Proof.
  split.
  - rewrite <- DateString_same_day. unfold tileClassName.
    rewrite (bool_decide_eq_true_2 ("month"%string = "month"%string)) by done.
    destruct (decide (DateString (LocalTime date) = DateString (LocalTime now)))
      as [E|E].
    + by rewrite (bool_decide_eq_true_2 _ E).
    + rewrite (bool_decide_eq_false_2 _ E). split; [|done].
      by repeat case_match.
  - intros E. apply DateString_same_day in E.
    unfold tileClassName, handleBlackoutToggle. by rewrite E.
Qed.

Lemma tile_of_a_day_witness :
  let morning := 1704412800000 in
  let evening := 1704412800000 + 20 * 3600000 in
  tileClassName [] [] evening morning "month" = Some "today"%string.
Proof.
  intros morning evening.
  apply (proj1 (tile_of_a_day [] [] evening morning morning "month")).
  reflexivity.
Defined.

(** ** The day a stored date is shown on *)

Lemma decimal_value_bounds (s : jsstring) (a : Z) :
  all_digits s = true -> 0 <= a ->
  a * 10 ^ Z.of_nat (length s) <= decimal_value a s
    < (a + 1) * 10 ^ Z.of_nat (length s).
Proof.
  revert a. induction s as [|c s IH]; intros a Hs Ha.
  - simpl. lia.
  - unfold all_digits in Hs. cbn [forallb] in Hs.
    apply andb_true_iff in Hs as [Hc Hs].
    unfold is_digit in Hc. apply andb_true_iff in Hc as [Hc1 Hc2].
    apply N.leb_le in Hc1, Hc2.
    cbn [decimal_value length]. rewrite Nat2Z.inj_succ, Z.pow_succ_r by lia.
    specialize (IH (10 * a + (Z.of_N c - 48)) Hs ltac:(lia)).
    assert (0 < 10 ^ Z.of_nat (length s)) by (apply Z.pow_pos_nonneg; lia).
    nia.
Qed.

Lemma short_field_determined (f : jsstring) :
  all_digits f = true -> (length f <= 4)%nat ->
  determinedField f = true /\ 0 <= decimal_value 0 f < 10000.
Proof.
  intros Hf Hl. pose proof (decimal_value_bounds f 0 Hf ltac:(lia)) as H.
  assert (10 ^ Z.of_nat (length f) <= 10 ^ 4)
    by (apply Z.pow_le_mono_r; lia).
  split; [|lia]. unfold determinedField. rewrite Hf. simpl.
  apply Z.leb_le. lia.
Qed.

Lemma daysInMonth_bound (m leap : Z) :
  0 <= leap <= 1 -> daysInMonth m leap <= 31.
Proof. intros H. unfold daysInMonth. repeat case_match; lia. Qed.

(** The local midnight of a date of the calendar: month from 1 to 12, a
    day of that month, a year of up to four digits. *)
Lemma calendar_midnight (s m d y : jsstring) (rest : list jsstring) :
  split s slash = m :: d :: y :: rest ->
  all_digits m = true -> all_digits d = true -> all_digits y = true ->
  (length y <= 4)%nat ->
  let M := decimal_value 0 m in
  let D := decimal_value 0 d in
  let Y := MakeFullYear (decimal_value 0 y) in
  1 <= M <= 12 ->
  1 <= D <= daysInMonth (M - 1) (if DaysInYear Y =? 366 then 1 else 0) ->
  let t := MakeDate (MakeDay Y (M - 1) D) 0 in
  jobMidnight s = Some t /\
  Z.abs t <= 8640000000000000 - msPerDay /\
  YearFromTime t = Y /\ MonthFromTime t = M - 1 /\ DateFromTime t = D.
Proof.
  intros Es Hm Hd Hy Ly M D Y HM HD t.
  destruct (short_field_determined y Hy Ly) as [Dy By].
  assert (HD31 : D <= 31).
  { pose proof (daysInMonth_bound (M - 1) (if DaysInYear Y =? 366 then 1 else 0)
                  ltac:(destruct (DaysInYear Y =? 366); lia)). lia. }
  assert (Dm : determinedField m = true).
  { unfold determinedField. rewrite Hm. apply Z.leb_le. fold M. lia. }
  assert (Dd : determinedField d = true).
  { unfold determinedField. rewrite Hd. apply Z.leb_le. fold D. lia. }
  split; [exact (jobMidnight_fields s m d y rest Es Dm Dd Dy)|].
  split; [|by apply MakeDay_calendar_date; [lia|]].
  assert (HY : 0 <= Y <= 9999).
  { unfold Y, MakeFullYear.
    destruct (Z.leb_spec 0 (decimal_value 0 y)),
      (Z.leb_spec (decimal_value 0 y) 99); simpl; lia. }
  unfold t, MakeDate, MakeDay, msPerDay.
  rewrite (Z.div_small (M - 1) 12), (Z.mod_small (M - 1) 12) by lia.
  assert (0 <= monthStart (M - 1) (if DaysInYear (Y + 0) =? 366 then 1 else 0) <= 335).
  { unfold monthStart. destruct (DaysInYear (Y + 0) =? 366);
      repeat case_match; lia. }
  assert (-720000 <= DayFromYear (Y + 0) <= 3000000).
  { clear -HY. clearbody Y. unfold DayFromYear. Z.div_mod_to_equations. lia. }
  lia.
Qed.

(** In the zone of UTC the key in a zone is the key of the dashboard. *)
Lemma jobDateKeyIn_utc (job : obj) : jobDateKeyIn utcZone job = jobDateKey job.
Proof.
  unfold jobDateKeyIn, jobDateKey.
  destruct (truthy (get job "date")); [|done].
  destruct (get job "date") as [| | | |s]; try done.
  unfold dateKey, toDateStringIn, toDateString, newDate. cbv zeta.
  destruct (localMidnight _ _ _) as [t|]; [|done].
  change (UTCIn utcZone t) with (UTC t).
  by destruct (TimeClip (UTC t)).
Qed.

Lemma boundedZone_utc : boundedZone utcZone.
Proof. intros t b. unfold utcZone, LocalTZA, msPerDay. simpl. lia. Qed.

Lemma zoneHasDay_utc (t : Z) : zoneHasDay utcZone t.
Proof.
  unfold zoneHasDay, LocalTimeIn, UTCIn, utcZone, LocalTZA. f_equal. lia.
Qed.

(** The key of a date whose local midnight is [t], in a zone that has the
    day of [t]: the date string of [t]. *)
Lemma jobDateKeyIn_midnight (tza : zone) (job : obj) (s : jsstring) (t : Z) :
  get job "date" = VStr s -> s <> [] -> jobMidnight s = Some t ->
  Z.abs t <= 8640000000000000 - msPerDay ->
  boundedZone tza -> zoneHasDay tza t ->
  jobDateKeyIn tza job = Returns (Some (DateString t)).
Proof.
  intros E Hs Ht Hr Hb Hz. unfold jobDateKeyIn. rewrite E.
  assert (Htr : truthy (VStr s) = true) by (by destruct s).
  rewrite Htr. cbv zeta. unfold toDateStringIn.
  change (localMidnight _ _ _) with (jobMidnight s). rewrite Ht.
  unfold TimeClip.
  destruct (Z.ltb_spec 8640000000000000 (Z.abs (UTCIn tza t))) as [H|H].
  - unfold UTCIn in H. specialize (Hb t false). lia.
  - do 2 f_equal. by apply DateString_same_day.
Qed.

Lemma jobDateKey_midnight (job : obj) (s : jsstring) (t : Z) :
  get job "date" = VStr s -> s <> [] -> jobMidnight s = Some t ->
  Z.abs t <= 8640000000000000 - msPerDay ->
  jobDateKey job = Returns (Some (DateString t)).
Proof.
  intros E Hs Ht Hr. rewrite <- jobDateKeyIn_utc.
  exact (jobDateKeyIn_midnight utcZone job s t E Hs Ht Hr boundedZone_utc
           (zoneHasDay_utc t)).
Qed.

(** X18. A job stored with a date of the calendar is keyed to that very
    day: for a month from 1 to 12, a day of that month and a year of up to
    four digits, the day key is the date string of the local midnight
    whose year, month and date are those of the stored date; a year below
    100 counts from 1900.  This holds in the zone of UTC and in every time
    zone that has that day, that is, where the local time of the instant
    taken for that midnight falls on the same day; a zone that skips the
    day keys the job to another day. *)
Theorem jobDateKey_calendar (job : obj) (s m d y : jsstring) :
  get job "date" = VStr s ->
  split s slash = [m; d; y] ->
  all_digits m = true -> all_digits d = true -> all_digits y = true ->
  (length y <= 4)%nat ->
  let M := decimal_value 0 m in
  let D := decimal_value 0 d in
  let Y := MakeFullYear (decimal_value 0 y) in
  1 <= M <= 12 ->
  1 <= D <= daysInMonth (M - 1) (if DaysInYear Y =? 366 then 1 else 0) ->
  let t := MakeDate (MakeDay Y (M - 1) D) 0 in
  (YearFromTime t = Y /\ MonthFromTime t = M - 1 /\ DateFromTime t = D) /\
  jobDateKey job = Returns (Some (DateString t)) /\
  (forall tza, boundedZone tza -> zoneHasDay tza t ->
     jobDateKeyIn tza job = Returns (Some (DateString t))).
Proof.
  intros E Es Hm Hd Hy Ly M D Y HM HD t.
  destruct (calendar_midnight s m d y [] Es Hm Hd Hy Ly HM HD) as (Ht & Hr & Hc).
  assert (Hs : s <> []) by (intros ->; discriminate Es).
  split; [exact Hc|]. split.
  - by apply (jobDateKey_midnight job s t).
  - intros tza Hb Hz. by apply (jobDateKeyIn_midnight tza job s t).
Qed.

(** 29 February 2024, in the zone of UTC and five hours behind it. *)
Lemma jobDateKey_calendar_witness :
  let job : obj := {[ "date"%string := VStr (str "2/29/2024") ]} in
  let t := MakeDate (MakeDay 2024 1 29) 0 in
  (YearFromTime t = 2024 /\ MonthFromTime t = 1 /\ DateFromTime t = 29) /\
  jobDateKey job = Returns (Some (DateString t)) /\
  jobDateKeyIn (fun _ _ => -18000000) job = Returns (Some (str "Thu Feb 29 2024")).
Proof.
  intros job t.
  destruct (jobDateKey_calendar job (str "2/29/2024") (str "2") (str "29")
              (str "2024")) as (H1 & H2 & H3);
    try reflexivity; try (simpl; lia).
  split; [exact H1|]. split; [exact H2|].
  rewrite (H3 (fun _ _ => -18000000)); [vm_compute; reflexivity| |].
  - intros u b. unfold msPerDay. simpl. lia.
  - vm_compute. reflexivity.
Defined.

(** A zone that skips a day: ten hours behind UTC until the end of
    29 December 2011, fourteen hours ahead from then on.  A job dated
    30 December 2011 is keyed to the 31st there. *)
Example skipped_day_moves_job :
  let change := 1325239200000 in
  let skipping : zone := fun t isUTC =>
    if isUTC then (if t <? change then -36000000 else 50400000)
    else (if t <? change - 36000000 + msPerDay then -36000000 else 50400000) in
  let job : obj := {[ "date"%string := VStr (str "12/30/2011") ]} in
  jobDateKey job = Returns (Some (str "Fri Dec 30 2011")) /\
  jobDateKeyIn skipping job = Returns (Some (str "Sat Dec 31 2011")) /\
  jobDateKeyIn skipping {[ "date"%string := VStr (str "12/29/2011") ]}
    = Returns (Some (str "Thu Dec 29 2011")).
Proof. vm_compute. repeat split. Qed.

(** X19. Zero-padding a stored date does not move the job on the
    calendar: a job with a well-formed date has the same day key with the
    date as it is and with the date padded, as an edit leaves it. *)
Theorem jobDateKey_padded (job : obj) (s : jsstring) :
  job !! "date"%string = Some (VStr s) ->
  wellFormedDate s = true ->
  jobDateKey (<[ "date"%string := VStr (padded s) ]> job) = jobDateKey job.
Proof.
  intros Hdate Hwf. unfold wellFormedDate in Hwf.
  destruct (split s slash) as [|m [|d [|y [|? ?]]]] eqn:E; try done.
  rewrite !andb_true_iff, !Nat.leb_le, Nat.eqb_eq in Hwf.
  destruct Hwf as [[[[[[[Hm Hd] Hy] Lm1] Lm2] Ld1] Ld2] Ly].
  destruct (short_field_determined m Hm ltac:(lia)) as [Dm _].
  destruct (short_field_determined d Hd ltac:(lia)) as [Dd _].
  destruct (short_field_determined y Hy ltac:(lia)) as [Dy _].
  assert (Hpad : forall f, all_digits f = true -> determinedField f = true ->
            determinedField (padStart f 2 zero_digit) = true /\
            decimal_value 0 (padStart f 2 zero_digit) = decimal_value 0 f).
  { intros f Hf Df.
    assert (Hv : decimal_value 0 (padStart f 2 zero_digit) = decimal_value 0 f)
      by apply decimal_value_zeros.
    split; [|exact Hv]. unfold determinedField in *.
    rewrite all_digits_padStart, Hv by done.
    by apply andb_true_iff in Df as [_ ->]. }
  destruct (Hpad m Hm Dm) as [Dm' Vm]. destruct (Hpad d Hd Dd) as [Dd' Vd].
  assert (Hsplit : split (padded s) slash =
                   [padStart m 2 zero_digit; padStart d 2 zero_digit; y]).
  { unfold padded. rewrite E. apply split_join; [done|].
    repeat apply Forall_cons_2; [| | |constructor];
      apply all_digits_without; auto using all_digits_padStart. }
  rewrite (jobDateKey_fields job s m d y [] (get_lookup _ _ _ Hdate) E Dm Dd Dy).
  rewrite (jobDateKey_fields _ (padded s) _ _ y []
             (get_lookup _ _ _ (lookup_insert_eq _ _ _)) Hsplit Dm' Dd' Dy).
  by rewrite Vm, Vd.
Qed.

Lemma jobDateKey_padded_witness :
  let job : obj := {[ "date"%string := VStr (str "1/5/2024") ]} in
  jobDateKey (<[ "date"%string := VStr (padded (str "1/5/2024")) ]> job)
  = jobDateKey job.
Proof.
  intros job. apply (jobDateKey_padded job (str "1/5/2024")); reflexivity.
Defined.

(** X20. From the add form to the calendar: a job added with the date
    year-month-day of the date input, a date of the calendar with a year of
    up to four digits, is passed to [setDoc] under the generated id, and
    the record is keyed to that very day (a year below 100 counts from
    1900), in the zone of UTC and in every time zone that has that day. *)
Theorem added_job_on_its_day (uuid : jsstring) (data : obj) (y m d : jsstring) :
  get data "date" = VStr (join dash [y; m; d]) ->
  all_digits y = true -> all_digits m = true -> all_digits d = true ->
  (length y <= 4)%nat ->
  let M := decimal_value 0 m in
  let D := decimal_value 0 d in
  let Y := MakeFullYear (decimal_value 0 y) in
  1 <= M <= 12 ->
  1 <= D <= daysInMonth (M - 1) (if DaysInYear Y =? 366 then 1 else 0) ->
  let t := MakeDate (MakeDay Y (M - 1) D) 0 in
  (YearFromTime t = Y /\ MonthFromTime t = M - 1 /\ DateFromTime t = D) /\
  exists newJob,
    handleAddJob uuid data = Some (VStr uuid, newJob) /\
    newJob !! "date"%string = Some (VStr (join slash [m; d; y])) /\
    jobDateKey newJob = Returns (Some (DateString t)) /\
    (forall tza, boundedZone tza -> zoneHasDay tza t ->
       jobDateKeyIn tza newJob = Returns (Some (DateString t))).
Proof.
  intros Hdate Hy Hm Hd Ly M D Y HM HD t.
  assert (Hst : formatDateForStorage (get data "date") =
                Returns (VStr (join slash [m; d; y]))).
  { rewrite Hdate. apply formatDateForStorage_fields; by apply all_digits_without. }
  assert (Hsplit : split (join slash [m; d; y]) slash = [m; d; y]).
  { apply split_join; [done|].
    repeat apply Forall_cons_2; [| | |constructor]; by apply all_digits_without. }
  destruct (calendar_midnight _ m d y [] Hsplit Hm Hd Hy Ly HM HD) as (Ht & Hr & Hc).
  split; [exact Hc|].
  unfold handleAddJob. rewrite Hst. eexists. split; [reflexivity|].
  assert (Hl : (<[ "id"%string := VStr uuid ]>
                   (<[ "completed"%string := VBool false ]>
                      (<[ "date"%string := VStr (join slash [m; d; y]) ]> data)))
                 !! "date"%string = Some (VStr (join slash [m; d; y]))).
  { rewrite lookup_insert_ne by done.
    rewrite lookup_insert_ne by done. apply lookup_insert_eq. }
  assert (Hne : join slash [m; d; y] <> []) by (by destruct m).
  split; [exact Hl|]. split.
  - by apply (jobDateKey_midnight _ _ t (get_lookup _ _ _ Hl)).
  - intros tza Hb Hz.
    by apply (jobDateKeyIn_midnight tza _ _ t (get_lookup _ _ _ Hl)).
Qed.

Lemma added_job_on_its_day_witness :
  let data : obj := {[ "name"%string := VStr (str "Ann");
                       "date"%string := VStr (str "2024-02-29") ]} in
  let t := MakeDate (MakeDay 2024 1 29) 0 in
  exists newJob,
    handleAddJob (str "u1") data = Some (VStr (str "u1"), newJob) /\
    newJob !! "date"%string = Some (VStr (str "02/29/2024")) /\
    jobDateKey newJob = Returns (Some (DateString t)) /\
    jobDateKeyIn (fun _ _ => 19800000) newJob = Returns (Some (DateString t)).
Proof.
  intros data t.
  destruct (added_job_on_its_day (str "u1") data (str "2024") (str "02") (str "29"))
    as (_ & newJob & H1 & H2 & H3 & H4);
    try reflexivity; try (simpl; lia).
  exists newJob. split; [exact H1|]. split; [exact H2|]. split; [exact H3|].
  apply H4.
  - intros u b. unfold msPerDay. simpl. lia.
  - vm_compute. reflexivity.
Defined.

Lemma dateKey_not_empty (v : value) (k : jsstring) :
  dateKey v = Returns k -> k <> [].
Proof.
  unfold dateKey. destruct v as [| | | |s]; try done.
  cbv zeta. destruct (newDate _ _ _) as [|t]; simpl.
  - by intros [= <-].
  - intros [= <-]. apply DateString_not_empty.
Qed.

(** X21. The job dates are an array, not a set: they hold one entry for
    every job that has a date, in the order of the jobs, equal keys
    repeated, and nothing for a job without a date. *)
Theorem jobDates_entries (jobs : list obj) (dates : list jsstring) :
  jobDates jobs = Returns dates ->
  Forall2 (fun job k => jobDateKey job = Returns (Some k))
    (List.filter (fun job => truthy (get job "date")) jobs) dates.
Proof.
  unfold jobDates.
  destruct (mapOutcome jobDateKey jobs) as [keys|] eqn:E; simpl; try done.
  intros [= <-]. apply mapOutcome_Returns in E.
  induction E as [|job key jobs keys Hkey _ IH]; simpl; [constructor|].
  destruct (truthy (get job "date")) eqn:Ht.
  - unfold jobDateKey in Hkey. rewrite Ht in Hkey.
    destruct (dateKey (get job "date")) as [k|] eqn:Ek; simpl in Hkey; try done.
    injection Hkey as <-. pose proof (dateKey_not_empty _ _ Ek) as Hne.
    destruct k as [|c k]; [done|]. cbn [filterBoolean omap].
    constructor; [|exact IH].
    unfold jobDateKey. by rewrite Ht, Ek.
  - apply jobDateKey_falsy in Ht. rewrite Ht in Hkey. injection Hkey as <-.
    exact IH.
Qed.

Lemma jobDates_entries_witness :
  let jobs : list obj := [ {[ "date"%string := VStr (str "01/05/2024") ]};
                           (∅ : obj);
                           {[ "date"%string := VStr (str "1/5/2024") ]} ] in
  Forall2 (fun job k => jobDateKey job = Returns (Some k))
    (List.filter (fun job => truthy (get job "date")) jobs)
    [str "Fri Jan 05 2024"; str "Fri Jan 05 2024"].
Proof.
  intros jobs. apply (jobDates_entries jobs). vm_compute. reflexivity.
Defined.



